(** * A shallow embedding of [main.py], the channel-to-menu Telegram bot

    The script keeps a JSON file of media records, fills it from posts of one
    channel and serves it as a paginated inline menu.  This file embeds the
    script's functions in Rocq and proves the properties its specification
    states about them.

    Conventions of the embedding:
    - a Python [int] is a [Z]; a Python [str] is a [string] holding its UTF-8
      bytes (so ["play:"], [":"] and decimal digits are single characters);
    - a record of the store is a Python [dict]: a [gmap string pyval], whose
      values are the strings and integers the script writes.  A backing file
      whose list holds anything else (nested values, floats, elements that
      are not objects) is outside the model;
    - every function of the script runs in the monad [M], which threads the
      [world] (the backing file, what the environment allows, and the calls
      made so far on the platform client) and may raise a Python exception;
    - the environment decides whether the backing file can be opened for
      writing and whether a document can be delivered, the two failures the
      script catches.  The other calls on the platform client are recorded
      and taken to succeed; a write that fails half-way is not modelled. *)

From Stdlib Require Import ZArith Ascii String List.
From stdpp Require Import base tactics option list strings pretty gmap.

Local Open Scope string_scope.
Local Open Scope Z_scope.
Local Open Scope list_scope.

(** ** Python values *)

(** The values held by the fields of a record: [main.py] writes strings
    ([id], [title], [file_id]) and integers ([msg_id]). *)
Inductive pyval : Type :=
  | PInt (n : Z)
  | PStr (s : string).

Global Instance pyval_eq_dec : EqDecision pyval.
Proof. solve_decision. Defined.

(** A record of the store, as [json.load] returns it: a [dict]. *)
Abbreviation entry := (gmap string pyval).

(** [str(n)] for an [int]: the decimal numeral, with [-] for negatives. *)
Definition str (n : Z) : string := pretty n.

(** [f"{v}"] for a field value. *)
Definition format_value (v : pyval) : string :=
  match v with
  | PInt n => str n
  | PStr s => s
  end.

(** [v == n] for a field value [v] and an [int] [n]. *)
Definition eq_int (v : option pyval) (n : Z) : bool :=
  match v with
  | Some (PInt m) => bool_decide (m = n)
  | _ => false
  end.

(** [v == s] for a field value [v] and a [str] [s]. *)
Definition eq_str (v : pyval) (s : string) : bool :=
  match v with
  | PStr t => bool_decide (t = s)
  | PInt _ => false
  end.

(** ** Strings *)

Definition bytes_of (s : string) : list ascii := list_ascii_of_string s.
Definition of_bytes (l : list ascii) : string := string_of_list_ascii l.

(** The code points for which [str.isspace] holds, as UTF-8 byte sequences:
    U+0009..U+000D, U+001C..U+0020, U+0085, U+00A0, U+1680, U+2000..U+200A,
    U+2028, U+2029, U+202F, U+205F and U+3000. *)
Definition ascii_space (c : ascii) : bool :=
  let n := nat_of_ascii c in
  ((9 <=? n) && (n <=? 13) || (28 <=? n) && (n <=? 32))%nat.

Definition byte_is (n : nat) (c : ascii) : bool := (nat_of_ascii c =? n)%nat.

Definition space3 (a b c : ascii) : bool :=
  let z := nat_of_ascii c in
  byte_is 225 a && byte_is 154 b && byte_is 128 c
  || byte_is 226 a && byte_is 128 b
     && ((128 <=? z) && (z <=? 138) || byte_is 168 c || byte_is 169 c
         || byte_is 175 c)%nat
  || byte_is 226 a && byte_is 129 b && byte_is 159 c
  || byte_is 227 a && byte_is 128 b && byte_is 128 c.

Definition space2 (a b : ascii) : bool :=
  byte_is 194 a && (byte_is 133 b || byte_is 160 b).

(** [lstrip_bytes n l] drops the white space at the head of [l]; [n] bounds
    the number of characters dropped and [length l] is always enough. *)
Fixpoint lstrip_bytes (n : nat) (l : list ascii) : list ascii :=
  match n with
  | O => l
  | S n' =>
      match l with
      | a :: l1 =>
          if ascii_space a then lstrip_bytes n' l1
          else match l1 with
               | b :: l2 =>
                   if space2 a b then lstrip_bytes n' l2
                   else match l2 with
                        | c :: l3 =>
                            if space3 a b c then lstrip_bytes n' l3 else l
                        | [] => l
                        end
               | [] => l
               end
      | [] => l
      end
  end.

(** The same from the end: the list is given reversed, so a multi-byte
    character shows its last byte first. *)
Fixpoint rstrip_rev_bytes (n : nat) (l : list ascii) : list ascii :=
  match n with
  | O => l
  | S n' =>
      match l with
      | c :: l1 =>
          if ascii_space c then rstrip_rev_bytes n' l1
          else match l1 with
               | b :: l2 =>
                   if space2 b c then rstrip_rev_bytes n' l2
                   else match l2 with
                        | a :: l3 =>
                            if space3 a b c then rstrip_rev_bytes n' l3 else l
                        | [] => l
                        end
               | [] => l
               end
      | [] => l
      end
  end.

(** [s.strip()] *)
Definition strip (s : string) : string :=
  let l := lstrip_bytes (String.length s) (bytes_of s) in
  of_bytes (rev (rstrip_rev_bytes (length l) (rev l))).

(** [s.startswith(p)] *)
Fixpoint startswith (s p : string) {struct p} : bool :=
  match p with
  | EmptyString => true
  | String c p' =>
      match s with
      | String d s' => bool_decide (c = d) && startswith s' p'
      | EmptyString => false
      end
  end.

(** [s.split(sep, 1)] for a one-character separator: the text before the
    first [sep] and the text after it, or [s] alone when it has none. *)
Fixpoint split_once (sep : ascii) (s : string) : list string :=
  match s with
  | EmptyString => [EmptyString]
  | String c s' =>
      if bool_decide (c = sep) then [EmptyString; s']
      else match split_once sep s' with
           | x :: rest => String c x :: rest
           | [] => [s]
           end
  end.

(** [a or b] for two strings. *)
Definition str_or (a b : string) : string :=
  if bool_decide (a = "") then b else a.

(** ** Lists *)

(** A slice index, clamped the way [PySlice_AdjustIndices] does for step 1. *)
Definition clamp (i len : Z) : Z :=
  if i <? 0 then Z.max (i + len) 0 else Z.min i len.

(** [l[start:stop]] *)
Definition slice {A} (l : list A) (start stop : Z) : list A :=
  let len := Z.of_nat (length l) in
  let lo := clamp start len in
  let hi := clamp stop len in
  take (Z.to_nat (hi - lo)) (drop (Z.to_nat lo) l).

(** ** The world the script runs in *)

(** What [json.load] makes of the backing file: the script looks only at
    [isinstance(data, list)], and the elements of a list are dictionaries
    (which may lack any of the keys of a record). *)
Inductive json : Type :=
  | JList (entries : list entry)
  | JOther.

(** The backing file [DB_PATH]. *)
Inductive file_state : Type :=
  | Missing                 (* [os.path.exists] is false *)
  | Unreadable              (* [open] or [json.load] raises *)
  | Parsed (data : json).   (* [json.load] returns [data] *)

(** [InlineKeyboardButton(text, callback_data=...)] *)
Record InlineKeyboardButton : Type := Button {
  text : pyval;
  callback_data : string;
}.

Inductive log_level : Type := INFO | ERROR.

(** The calls the script makes on the platform client and on the logger, in
    the order it makes them.  A log line is recorded by its format string. *)
Inductive event : Type :=
  | send_message (chat_id : Z) (text : string)
      (reply_markup : option (list (list InlineKeyboardButton)))
  | send_document (chat_id : Z) (document : option pyval)
      (filename : string) (caption : pyval)
  | reply_text (text : string)
  | answer
  | delete
  | log (level : log_level) (format : string).

Record world : Type := World {
  db_file : file_state;
  (** whether [open(DB_PATH, "w")] succeeds *)
  db_writable : bool;
  (** whether the platform still delivers the document of this reference *)
  deliverable : option pyval -> bool;
  outbox : list event;
}.

(** The exceptions the script can meet; all derive from [Exception]. *)
Inductive exn : Type :=
  | KeyError (key : string)
  | IndexError
  | ValueError
  | ZeroDivisionError
  | AttributeError
  | OSError
  | TelegramError.

Inductive result (A : Type) : Type :=
  | Ok (a : A)
  | Raise (e : exn).
Arguments Ok {A} a.
Arguments Raise {A} e.

Definition M (A : Type) : Type := world -> result A * world.

Global Instance M_ret : MRet M := fun A a w => (Ok a, w).
Global Instance M_bind : MBind M := fun A B f m w =>
  match m w with
  | (Ok a, w') => f a w'
  | (Raise e, w') => (Raise e, w')
  end.

Definition raise {A} (e : exn) : M A := fun w => (Raise e, w).

(** [try: body  except Exception as e: handler(e)]; what [body] did before
    it raised stays done. *)
Definition try_except {A} (body : M A) (handler : exn -> M A) : M A :=
  fun w =>
    match body w with
    | (Ok a, w') => (Ok a, w')
    | (Raise e, w') => handler e w'
    end.

Definition emit (ev : event) : M unit := fun w =>
  (Ok tt, World (db_file w) (db_writable w) (deliverable w) (outbox w ++ [ev])).

(** The final world and the outcome of a run. *)
Definition exec {A} (m : M A) (w : world) : world := snd (m w).
Definition outcome {A} (m : M A) (w : world) : result A := fst (m w).

(** *** The file system *)

(** [os.path.exists(DB_PATH)] *)
Definition os_path_exists : M bool := fun w =>
  (Ok (match db_file w with Missing => false | _ => true end), w).

(** [with open(DB_PATH, "r") as fh: json.load(fh)] *)
Definition json_load : M json := fun w =>
  match db_file w with
  | Parsed data => (Ok data, w)
  | Missing | Unreadable => (Raise OSError, w)
  end.

(** [with open(DB_PATH, "w") as fh: json.dump(entries, fh, ...)]: the file
    then holds [entries], or is left as it was when it cannot be opened. *)
Definition json_dump (entries : list entry) : M unit := fun w =>
  if db_writable w
  then (Ok tt, World (Parsed (JList entries)) (db_writable w) (deliverable w)
                  (outbox w))
  else (Raise OSError, w).

(** *** The platform client *)

Definition bot_send_message (chat_id : Z) (text : string)
    (reply_markup : option (list (list InlineKeyboardButton))) : M unit :=
  emit (send_message chat_id text reply_markup).

(** [bot.send_document] raises when the platform refuses the reference. *)
Definition bot_send_document (chat_id : Z) (document : option pyval)
    (filename : string) (caption : pyval) : M unit := fun w =>
  if deliverable w document
  then emit (send_document chat_id document filename caption) w
  else (Raise TelegramError, w).

Definition logger (level : log_level) (format : string) : M unit :=
  emit (log level format).

(** ** Dictionaries and sequences *)

(** [e[key]] *)
Definition getitem (e : entry) (key : string) : M pyval :=
  match e !! key with
  | Some v => mret v
  | None => raise (KeyError key)
  end.

(** [l[i]] for [i >= 0] *)
Definition index {A} (l : list A) (i : nat) : M A :=
  match l !! i with
  | Some x => mret x
  | None => raise IndexError
  end.

(** [l[-1]] *)
Definition index_last {A} (l : list A) : M A :=
  match last l with
  | Some x => mret x
  | None => raise IndexError
  end.

(** [a // b] *)
Definition floordiv (a b : Z) : M Z :=
  if bool_decide (b = 0) then raise ZeroDivisionError else mret (a `div` b).

(** [[f(e) for e in l]], and [for e in l: keyboard.append(f(e))] *)
Fixpoint for_each {A B} (f : A -> M B) (l : list A) : M (list B) :=
  match l with
  | [] => mret []
  | a :: l' => b ← f a; bs ← for_each f l'; mret (b :: bs)
  end.

(** ** DB helpers *)

Definition load_db : M (list entry) :=
  present ← os_path_exists;
  if negb present then mret []
  else
    try_except
      (data ← json_load;
       mret (match data with JList l => l | JOther => [] end))
      (fun e => logger ERROR "Failed to load DB: %s";; mret []).

Definition save_db (entries : list entry) : M unit :=
  try_except (json_dump entries)
    (fun e => logger ERROR "Failed to save DB: %s").

(** [e.update({"title": title, "file_id": file_id})] *)
Definition update (e : entry) (title file_id : string) : entry :=
  <["file_id" := PStr file_id]> (<["title" := PStr title]> e).

(** The loop of [add_or_update_entry]: the first record whose [msg_id]
    equals [msg_id] is updated; [None] when the loop ends without one. *)
Fixpoint update_first (title file_id : string) (msg_id : Z)
    (entries : list entry) : option (list entry) :=
  match entries with
  | [] => None
  | e :: rest =>
      if eq_int (e !! "msg_id") msg_id
      then Some (update e title file_id :: rest)
      else cons e <$> update_first title file_id msg_id rest
  end.

Definition new_entry (title file_id : string) (msg_id : Z) : entry :=
  <["msg_id" := PInt msg_id]> (<["file_id" := PStr file_id]>
    (<["title" := PStr title]> (<["id" := PStr (str msg_id)]> ∅))).

Definition add_or_update_entry (title file_id : string) (msg_id : Z)
    : M unit :=
  entries ← load_db;
  match update_first title file_id msg_id entries with
  | Some entries' => save_db entries'
  | None => save_db (entries ++ [new_entry title file_id msg_id])
  end.

(** ** What the platform delivers to the handlers *)

(** A [Document], [Video] or [PhotoSize] attachment. *)
Record attachment : Type := Attachment { file_id : string }.

Record Message : Type := {
  chat_id : Z;                     (* [msg.chat.id], [msg.chat_id] *)
  message_id : Z;
  caption : option string;
  document : option attachment;
  video : option attachment;
  photo : list attachment;         (* the variants, smallest first *)
}.

(** A callback query comes from a button of a menu the bot sent; [message]
    is that menu. *)
Record CallbackQuery : Type := {
  data : option string;
  message : Message;
}.

Record Update : Type := {
  update_message : option Message;          (* [update.message] *)
  callback_query : option CallbackQuery;
  channel_post : option Message;
}.

(** ** Bot handlers *)

Section Handlers.

(** The module constants [CHANNEL_ID] and [PAGE_SIZE], and the builtin
    [int] on a [str]: the integer it returns, or [None] where it raises
    [ValueError]. *)
Variables (CHANNEL_ID PAGE_SIZE : Z) (int : string -> option Z).

(** One row of the menu: a button for the record [e]. *)
Definition entry_row (e : entry) : M (list InlineKeyboardButton) :=
  title ← getitem e "title";
  id ← getitem e "id";
  mret [Button title ("play:" +:+ format_value id)].

Definition send_menu_page (chat_id page : Z) : M unit :=
  entries ← load_db;
  let total := Z.of_nat (length entries) in
  if bool_decide (total = 0)
  then bot_send_message chat_id "No videos available yet." None
  else
    let start_idx := page * PAGE_SIZE in
    let end_idx := start_idx + PAGE_SIZE in
    let slice_entries := slice entries start_idx end_idx in
    keyboard ← for_each entry_row slice_entries;
    let nav_row :=
      if bool_decide (page > 0)
      then [Button (PStr "⬅ Prev") ("page:" +:+ str (page - 1))]
      else [] in
    pages ← floordiv (total - 1) PAGE_SIZE;
    let nav_row := nav_row ++
      [Button (PStr ("Page " +:+ str (page + 1) +:+ "/" +:+ str (pages + 1)))
         "noop"] in
    let nav_row := nav_row ++
      (if bool_decide (end_idx < total)
       then [Button (PStr "Next ➡") ("page:" +:+ str (page + 1))]
       else []) in
    let keyboard := keyboard ++ [nav_row] in
    let keyboard := keyboard ++ [[Button (PStr "Refresh DB") "refresh_db"]] in
    bot_send_message chat_id "Select a video:" (Some keyboard).

Definition start (update : Update) : M unit :=
  entries ← load_db;
  match update_message update with
  | None => raise AttributeError
  | Some msg =>
      if bool_decide (entries = [])
      then emit (reply_text
        "Hello! No videos yet in the channel.
Forward/upload videos to your storage channel.")
      else send_menu_page (chat_id msg) 0
  end.

(** [next((e for e in entries if e["id"] == vid_id), None)] *)
Fixpoint find_by_id (vid_id : string) (entries : list entry)
    : M (option entry) :=
  match entries with
  | [] => mret None
  | e :: rest =>
      id ← getitem e "id";
      if eq_str id vid_id then mret (Some e) else find_by_id vid_id rest
  end.

(** [int(data.split(":", 1)[1])] *)
Definition parse_page (data : string) : M Z :=
  suffix ← index (split_once ":" data) 1;
  match int suffix with
  | Some n => mret n
  | None => raise ValueError
  end.

Definition callback_handler (update : Update) : M unit :=
  match callback_query update with
  | None => raise AttributeError
  | Some query =>
      emit answer;;
      match data query with
      | None => mret tt
      | Some data =>
          if bool_decide (data = "") || bool_decide (data = "noop")
          then mret tt
          else if bool_decide (data = "refresh_db") then
            emit delete;;
            send_menu_page (chat_id (message query)) 0
          else if startswith data "page:" then
            page ← try_except (parse_page data) (fun _ => mret 0);
            emit delete;;
            send_menu_page (chat_id (message query)) page
          else if startswith data "play:" then
            vid_id ← index (split_once ":" data) 1;
            entries ← load_db;
            found ← find_by_id vid_id entries;
            match found with
            | None => emit (reply_text "Video not found. Try Refresh.")
            | Some entry =>
                if bool_decide (entry = ∅)
                then emit (reply_text "Video not found. Try Refresh.")
                else
                  let file_id := entry !! "file_id" in
                  let title := default (PStr "Video") (entry !! "title") in
                  try_except
                    (bot_send_document (chat_id (message query)) file_id
                       (format_value title +:+ ".mp4") title)
                    (fun _ =>
                       logger ERROR "Failed to send document: %s";;
                       emit (reply_text
                         "Failed to send video. It might be protected or file_id expired. Re-upload to channel if needed."))
            end
          else mret tt
      end
  end.

Definition channel_post_listener (update : Update) : M unit :=
  match channel_post update with
  | None => mret tt
  | Some msg =>
      if bool_decide (chat_id msg ≠ CHANNEL_ID) then mret tt
      else
        let caption := strip (default "" (caption msg)) in
        let msg_id := message_id msg in
        match document msg with
        | Some doc =>
            add_or_update_entry (str_or caption ("Document " +:+ str msg_id))
              (file_id doc) msg_id;;
            logger INFO "Saved document: %s"
        | None =>
            match video msg with
            | Some vid =>
                add_or_update_entry (str_or caption ("Video " +:+ str msg_id))
                  (file_id vid) msg_id;;
                logger INFO "Saved video: %s"
            | None =>
                if bool_decide (photo msg ≠ [])
                then
                  largest ← index_last (photo msg);
                  add_or_update_entry
                    (str_or caption ("Photo " +:+ str msg_id))
                    (file_id largest) msg_id;;
                  logger INFO "Saved photo: %s"
                else logger INFO "Ignored channel post: %s"
            end
        end
  end.

End Handlers.

(** ** The script as deployed *)

(** [int] on a numeral written with ASCII digits: optional white space
    around, an optional sign, and decimal digits that may be separated by
    single underscores.  (The builtin also reads the decimal digits of other
    scripts and, since Python 3.11, refuses numerals of more than 4300
    digits; the handlers above take [int] as it is.) *)
Definition digit (c : ascii) : option Z :=
  let n := nat_of_ascii c in
  if ((48 <=? n) && (n <=? 57))%nat then Some (Z.of_nat n - 48) else None.

Fixpoint digits (acc : Z) (after_digit : bool) (l : list ascii) : option Z :=
  match l with
  | [] => if after_digit then Some acc else None
  | c :: l' =>
      match digit c with
      | Some d => digits (10 * acc + d) true l'
      | None =>
          if bool_decide (c = "_"%char) && after_digit
          then digits acc false l'
          else None
      end
  end.

Definition ascii_int (s : string) : option Z :=
  match bytes_of (strip s) with
  | c :: l =>
      if bool_decide (c = "-"%char) then Z.opp <$> digits 0 false l
      else if bool_decide (c = "+"%char) then digits 0 false l
      else digits 0 false (c :: l)
  | [] => None
  end.

Module main.
Definition CHANNEL_ID : Z := -1003370713141.
Definition PAGE_SIZE : Z := 6.

Definition send_menu_page := send_menu_page PAGE_SIZE.
Definition start := start PAGE_SIZE.
Definition callback_handler := callback_handler PAGE_SIZE ascii_int.
Definition channel_post_listener := channel_post_listener CHANNEL_ID.
End main.

(** * The vocabulary of the properties *)

(** The records the script sees in a world: what [load_db] returns. *)
Definition stored (w : world) : list entry :=
  match db_file w with
  | Parsed (JList l) => l
  | _ => []
  end.

(** [w] after the calls [evs]. *)
Definition after (evs : list event) (w : world) : world :=
  World (db_file w) (db_writable w) (deliverable w) (outbox w ++ evs).

(** What [load_db] logs. *)
Definition load_log (w : world) : list event :=
  match db_file w with
  | Unreadable => [log ERROR "Failed to load DB: %s"]
  | _ => []
  end.

(** The world [save_db entries] leaves: the file holds [entries] when it
    can be written and is untouched, with an error logged, otherwise. *)
Definition saved (entries : list entry) (w : world) : world :=
  if db_writable w
  then World (Parsed (JList entries)) (db_writable w) (deliverable w) (outbox w)
  else after [log ERROR "Failed to save DB: %s"] w.

(** The list [add_or_update_entry] hands to [save_db]. *)
Definition upserted (title file_id : string) (msg_id : Z)
    (entries : list entry) : list entry :=
  match update_first title file_id msg_id entries with
  | Some entries' => entries'
  | None => entries ++ [new_entry title file_id msg_id]
  end.

(** [e.get("msg_id") == v] *)
Definition has_msg_id (v : Z) (e : entry) : bool := eq_int (e !! "msg_id") v.

(** The number of records of [l] whose [msg_id] is [v]. *)
Definition count_msg_id (v : Z) (l : list entry) : nat :=
  length (List.filter (has_msg_id v) l).

(** The invariant of the store: at most one record per source message. *)
Definition one_per_msg_id (l : list entry) : Prop :=
  forall v : Z, (count_msg_id v l <= 1)%nat.

(** A record as [add_or_update_entry] writes it: a [dict] with the string
    fields [id], [title], [file_id] and the integer field [msg_id]. *)
Definition is_record (e : entry) : bool :=
  match e !! "id", e !! "title", e !! "file_id", e !! "msg_id" with
  | Some (PStr _), Some (PStr _), Some (PStr _), Some (PInt _) => true
  | _, _, _, _ => false
  end.

(** A store of records. *)
Definition records (l : list entry) : Prop :=
  Forall (fun e => is_record e = true) l.

(** The row [r] is the button of the record [e]: labelled with its title,
    with the action [play:<id>]. *)
Definition shows (e : entry) (r : list InlineKeyboardButton) : Prop :=
  exists title id : pyval,
    e !! "title" = Some title /\ e !! "id" = Some id
    /\ r = [Button title ("play:" +:+ format_value id)].

(** The controls of the navigation row and the trailing refresh button. *)
Definition Prev (page : Z) : InlineKeyboardButton :=
  Button (PStr "⬅ Prev") ("page:" +:+ str (page - 1)).
Definition Next (page : Z) : InlineKeyboardButton :=
  Button (PStr "Next ➡") ("page:" +:+ str (page + 1)).
Definition Indicator (page count : Z) : InlineKeyboardButton :=
  Button (PStr ("Page " +:+ str (page + 1) +:+ "/" +:+ str count)) "noop".
Definition Refresh : InlineKeyboardButton :=
  Button (PStr "Refresh DB") "refresh_db".

(** A button is a Prev (Next) control when it is labelled so. *)
Definition is_Prev (b : InlineKeyboardButton) : Prop := text b = PStr "⬅ Prev".
Definition is_Next (b : InlineKeyboardButton) : Prop := text b = PStr "Next ➡".

(** The navigation row for [total] records, as [send_menu_page] builds it. *)
Definition nav_row (PAGE_SIZE total page : Z) : list InlineKeyboardButton :=
  (if bool_decide (page > 0) then [Prev page] else [])
  ++ [Indicator page ((total - 1) `div` PAGE_SIZE + 1)]
  ++ (if bool_decide (page * PAGE_SIZE + PAGE_SIZE < total)
      then [Next page] else []).

(** [page] is made of the records of [l] at the indices [lo], ..., [hi - 1],
    in that order, and of nothing else. *)
Definition holds_range (l page : list entry) (lo hi : Z) : Prop :=
  length page = Z.to_nat (hi - lo)
  /\ forall k : nat,
       lo <= Z.of_nat k < hi -> page !! Z.to_nat (Z.of_nat k - lo) = l !! k.

(** No record of [l] has the id [vid]. *)
Definition no_such_id (vid : string) (l : list entry) : Prop :=
  Forall (fun e => exists id, e !! "id" = Some id /\ eq_str id vid = false) l.

(** The placeholder title of a post without caption. *)
Definition placeholder (kind : string) (msg_id : Z) : string :=
  kind +:+ " " +:+ str msg_id.

(** Every record carries a [msg_id] and, as its [id], the decimal numeral of
    that [msg_id]: the shape [add_or_update_entry] gives to what it adds. *)
Definition keyed (l : list entry) : Prop :=
  Forall (fun e => exists m : Z,
            e !! "msg_id" = Some (PInt m) /\ e !! "id" = Some (PStr (str m))) l.

(** ** Concrete inputs *)

(** A world with no backing file yet. *)
Definition fresh_world : world := World Missing true (fun _ => true) [].

(** A store of two records, and one of thirteen. *)
Definition two_records : list entry :=
  [new_entry "intro" "F1" 1; new_entry "outro" "F2" 2].
Definition thirteen_records : list entry :=
  (fun n => new_entry ("clip " +:+ str n) "F" n) <$> (Z.of_nat <$> seq 1 13).

(** The worlds whose backing file holds them. *)
Definition small_world : world :=
  World (Parsed (JList two_records)) true (fun _ => true) [].
Definition demo_world : world :=
  World (Parsed (JList thirteen_records)) true (fun _ => true) [].

(** A press on a menu button in chat 7, and posts of the source channel. *)
Definition menu_message : Message :=
  Build_Message 7 40 None None None [].
Definition press (d : string) : Update :=
  Build_Update None (Some (Build_CallbackQuery (Some d) menu_message)) None.
Definition padded_post : Message :=
  Build_Message main.CHANNEL_ID 5 (Some " a") (Some (Attachment "F5")) None [].
Definition blank_post : Message :=
  Build_Message main.CHANNEL_ID 6 (Some "  ") None (Some (Attachment "F6")) [].
Definition text_post : Message :=
  Build_Message main.CHANNEL_ID 8 (Some "hello") None None [].
Definition channel (msg : Message) : Update :=
  Build_Update None None (Some msg).

(** ** Vocabulary of the further properties *)

(** [m] changes the world by the calls it makes and by nothing else: the
    backing file and what the environment allows stay as they are. *)
Definition only_emits {A} (m : M A) : Prop :=
  forall w, exists evs, exec m w = after evs w.

(** The records on page [i] of the menu. *)
Definition page_slice (P : Z) (l : list entry) (i : nat) : list entry :=
  slice l (Z.of_nat i * P) (Z.of_nat i * P + P).

(** The first [k] pages, one after the other. *)
Definition first_pages (P : Z) (l : list entry) (k : nat) : list entry :=
  concat (page_slice P l <$> seq 0 k).

(** The world of [small_world] on a medium that cannot be written. *)
Definition readonly_world : world :=
  World (Parsed (JList two_records)) false (fun _ => true) [].

(** A world whose backing file cannot be parsed, and one where the platform
    delivers no document. *)
Definition corrupt_world : world := World Unreadable true (fun _ => true) [].
Definition undelivering_world : world :=
  World (Parsed (JList two_records)) true (fun _ => false) [].

(** An ASCII character that is not white space: [strip] leaves it alone
    at either end of a string. *)
Definition plain (c : ascii) : bool :=
  negb (ascii_space c) && (nat_of_ascii c <? 128)%nat.

(** A decimal digit. *)
Definition is_digit (c : ascii) : bool :=
  ((48 <=? nat_of_ascii c) && (nat_of_ascii c <=? 57))%nat.

(** A world whose one record has an id and no title, and the update of a
    [/start] command sent in chat 7. *)
Definition broken_world : world :=
  World (Parsed (JList [{["id" := PStr "1"]}])) true (fun _ => true) [].
Definition command : Update := Build_Update (Some menu_message) None None.

(** * Properties *)

(** ** Running the monad *)

Lemma after_nil w : after [] w = w.
Proof. destruct w; unfold after; simpl. by rewrite app_nil_r. Qed.

Lemma after_after evs evs' w : after evs' (after evs w) = after (evs ++ evs') w.
Proof. unfold after; simpl. by rewrite app_assoc. Qed.

Lemma stored_after evs w : stored (after evs w) = stored w.
Proof. done. Qed.

Lemma bind_run {A B} (m : M A) (f : A -> M B) w a w' :
  m w = (Ok a, w') -> (m ≫= f) w = f a w'.
Proof. intros H. unfold mbind, M_bind. by rewrite H. Qed.

Lemma bind_raise {A B} (m : M A) (f : A -> M B) w e w' :
  m w = (Raise e, w') -> (m ≫= f) w = (Raise e, w').
Proof. intros H. unfold mbind, M_bind. by rewrite H. Qed.

Lemma ret_run {A} (a : A) w : (mret a : M A) w = (Ok a, w).
Proof. done. Qed.

Lemma emit_run ev w : emit ev w = (Ok tt, after [ev] w).
Proof. done. Qed.

Lemma load_db_run w : load_db w = (Ok (stored w), after (load_log w) w).
Proof.
  unfold load_db, stored, load_log.
  destruct w as [[| |[l|]] wr dl out]; cbn; unfold after; cbn;
    by rewrite ?app_nil_r.
Qed.

Lemma save_db_run entries w : save_db entries w = (Ok tt, saved entries w).
Proof.
  unfold save_db, try_except, json_dump, saved.
  by destruct (db_writable w).
Qed.

Lemma stored_saved entries w :
  stored (saved entries w) = if db_writable w then entries else stored w.
Proof. unfold saved. by destruct (db_writable w). Qed.

Lemma add_or_update_entry_run title fid m w :
  add_or_update_entry title fid m w
  = (Ok tt, saved (upserted title fid m (stored w)) (after (load_log w) w)).
Proof.
  unfold add_or_update_entry, upserted.
  rewrite (bind_run _ _ _ _ _ (load_db_run w)).
  destruct (update_first _ _ _ _); apply save_db_run.
Qed.

Lemma stored_upsert title fid m w :
  stored (exec (add_or_update_entry title fid m) w)
  = if db_writable w then upserted title fid m (stored w) else stored w.
Proof.
  unfold exec. rewrite add_or_update_entry_run. simpl.
  by rewrite stored_saved.
Qed.

Lemma db_file_upsert title fid m w :
  db_file (exec (add_or_update_entry title fid m) w)
  = if db_writable w then Parsed (JList (upserted title fid m (stored w)))
    else db_file w.
Proof.
  unfold exec. rewrite add_or_update_entry_run. simpl.
  unfold saved. simpl. by destruct (db_writable w).
Qed.

Lemma db_writable_upsert title fid m w :
  db_writable (exec (add_or_update_entry title fid m) w) = db_writable w.
Proof.
  unfold exec. rewrite add_or_update_entry_run. simpl.
  unfold saved, after. destruct (db_writable w) eqn:E; simpl; done.
Qed.

(** ** C5: loading *)

(** C5. [load_db] returns a sequence of records whatever the state of the
    backing file, and never raises: it returns the parsed list when the file
    holds one and the empty sequence when the file is absent, cannot be read
    or parsed, or parses to something that is not a list.  The file is left
    as it was. *)
Theorem load_db_total (w : world) :
  outcome load_db w
  = Ok (match db_file w with
        | Parsed (JList records) => records
        | Missing | Unreadable | Parsed JOther => []
        end)
  /\ db_file (exec load_db w) = db_file w.
Proof.
  unfold outcome, exec. rewrite load_db_run. simpl. split; [|done].
  unfold stored. by destruct (db_file w) as [| |[|]].
Qed.

(** ** C3, C4: the store under [add_or_update_entry] *)

Lemma update_other_key e title fid (k : string) :
  k ≠ "title" -> k ≠ "file_id" -> update e title fid !! k = e !! k.
Proof.
  intros Ht Hf. unfold update.
  rewrite lookup_insert_ne by done. by rewrite lookup_insert_ne.
Qed.

Lemma update_title e title fid : update e title fid !! "title" = Some (PStr title).
Proof. unfold update. rewrite lookup_insert_ne by done. apply lookup_insert_eq. Qed.

Lemma update_file_id e title fid :
  update e title fid !! "file_id" = Some (PStr fid).
Proof. apply lookup_insert_eq. Qed.

Lemma update_update e title fid :
  update (update e title fid) title fid = update e title fid.
Proof.
  apply map_eq; intros k. unfold update.
  rewrite !lookup_insert. by repeat case_decide.
Qed.

Lemma update_new_entry title fid m :
  update (new_entry title fid m) title fid = new_entry title fid m.
Proof.
  apply map_eq; intros k. unfold update, new_entry.
  rewrite !lookup_insert. repeat case_decide; congruence.
Qed.

Lemma has_msg_id_update v e title fid :
  has_msg_id v (update e title fid) = has_msg_id v e.
Proof. unfold has_msg_id. by rewrite update_other_key. Qed.

Lemma has_msg_id_new_entry v title fid m :
  has_msg_id v (new_entry title fid m) = bool_decide (m = v).
Proof. unfold has_msg_id, new_entry. by rewrite lookup_insert_eq. Qed.

Lemma count_msg_id_cons v e l :
  count_msg_id v (e :: l)
  = ((if has_msg_id v e then 1 else 0) + count_msg_id v l)%nat.
Proof. unfold count_msg_id. simpl. by destruct (has_msg_id v e). Qed.

Lemma count_msg_id_app v l l' :
  count_msg_id v (l ++ l') = (count_msg_id v l + count_msg_id v l')%nat.
Proof. unfold count_msg_id. by rewrite List.filter_app, length_app. Qed.

(** The loop stops at the first record of the message: it rewrites that
    record and no other. *)
Lemma update_first_Some title fid m l l' :
  update_first title fid m l = Some l' ->
  exists (i : nat) (e : entry),
    l !! i = Some e /\ has_msg_id m e = true
    /\ count_msg_id m (take i l) = 0%nat
    /\ l' = <[i := update e title fid]> l.
Proof.
  revert l'. induction l as [|e l IH]; intros l' H; simpl in H; [done|].
  fold (has_msg_id m e) in H. destruct (has_msg_id m e) eqn:He.
  - injection H as <-. by exists 0%nat, e.
  - destruct (update_first title fid m l) as [r|]; [|done].
    injection H as <-. destruct (IH r eq_refl) as (i & e' & Hi & He' & Hc & ->).
    exists (S i), e'. repeat split; try done.
    simpl. rewrite count_msg_id_cons, He. done.
Qed.

Lemma update_first_None title fid m l :
  update_first title fid m l = None -> count_msg_id m l = 0%nat.
Proof.
  induction l as [|e l IH]; simpl; [done|].
  fold (has_msg_id m e). rewrite count_msg_id_cons.
  destruct (has_msg_id m e); [done|].
  destruct (update_first title fid m l); [done|]. auto.
Qed.

Lemma update_first_count title fid m l l' v :
  update_first title fid m l = Some l' -> count_msg_id v l' = count_msg_id v l.
Proof.
  revert l'. induction l as [|e l IH]; intros l' H; simpl in H; [done|].
  fold (has_msg_id m e) in H. destruct (has_msg_id m e).
  - injection H as <-. by rewrite !count_msg_id_cons, has_msg_id_update.
  - destruct (update_first title fid m l) as [r|]; [|done].
    injection H as <-. rewrite !count_msg_id_cons. by rewrite (IH r).
Qed.

Lemma update_first_again title fid m l l' :
  update_first title fid m l = Some l' ->
  update_first title fid m l' = Some l'.
Proof.
  revert l'. induction l as [|e l IH]; intros l' H; simpl in H; [done|].
  fold (has_msg_id m e) in H. destruct (has_msg_id m e) eqn:He.
  - injection H as <-. simpl. fold (has_msg_id m (update e title fid)).
    by rewrite has_msg_id_update, He, update_update.
  - destruct (update_first title fid m l) as [r|]; [|done].
    injection H as <-. simpl. fold (has_msg_id m e).
    by rewrite He, (IH r).
Qed.

Lemma update_first_appended title fid m l :
  update_first title fid m l = None ->
  update_first title fid m (l ++ [new_entry title fid m])
  = Some (l ++ [new_entry title fid m]).
Proof.
  induction l as [|e l IH]; simpl.
  - intros _. fold (has_msg_id m (new_entry title fid m)).
    rewrite has_msg_id_new_entry, bool_decide_eq_true_2 by done.
    by rewrite update_new_entry.
  - fold (has_msg_id m e). destruct (has_msg_id m e); [done|].
    destruct (update_first title fid m l); [done|].
    intros _. by rewrite IH.
Qed.

Lemma upserted_idempotent title fid m l :
  upserted title fid m (upserted title fid m l) = upserted title fid m l.
Proof.
  unfold upserted at 2 3.
  destruct (update_first title fid m l) as [l'|] eqn:H; unfold upserted.
  - by rewrite (update_first_again _ _ _ _ _ H).
  - by rewrite (update_first_appended _ _ _ _ H).
Qed.

Lemma upserted_one_per_msg_id title fid m l :
  one_per_msg_id l -> one_per_msg_id (upserted title fid m l).
Proof.
  intros Hl v. unfold upserted.
  destruct (update_first title fid m l) as [l'|] eqn:H.
  - rewrite (update_first_count _ _ _ _ _ v H). apply Hl.
  - rewrite count_msg_id_app, count_msg_id_cons, has_msg_id_new_entry.
    case_bool_decide as Hv; simpl.
    + subst v. by rewrite (update_first_None _ _ _ _ H).
    + specialize (Hl v). unfold count_msg_id in *. simpl. lia.
Qed.

(** C3. A store with at most one record per [msg_id] still has at most one
    record per [msg_id] after any call of [add_or_update_entry].  When the
    file can be written the call either rewrites in place the record of that
    message (the first and so the only one) or, when there is none, appends
    exactly one new record. *)
Theorem upsert_keeps_one_per_msg_id (w : world) (title fid : string) (m : Z) :
  one_per_msg_id (stored w) ->
  let w' := exec (add_or_update_entry title fid m) w in
  one_per_msg_id (stored w')
  /\ (db_writable w = true ->
      (exists (i : nat) (e : entry),
          stored w !! i = Some e /\ has_msg_id m e = true
          /\ stored w' = <[i := update e title fid]> (stored w))
      \/ (count_msg_id m (stored w) = 0%nat
          /\ stored w' = stored w ++ [new_entry title fid m])).
Proof.
  intros Hinv w'. subst w'. rewrite stored_upsert. split.
  - destruct (db_writable w); [|done]. by apply upserted_one_per_msg_id.
  - intros ->. unfold upserted.
    destruct (update_first title fid m (stored w)) as [l'|] eqn:H.
    + left. destruct (update_first_Some _ _ _ _ _ H) as (i & e & ? & ? & ? & ?).
      by exists i, e.
    + right. split; [|done]. by apply (update_first_None title fid).
Qed.

(** C4. Calling [add_or_update_entry] a second time with the same message
    id, title and file reference leaves the backing file as the first call
    left it: the same records, in the same number. *)
Theorem upsert_idempotent (w : world) (title fid : string) (m : Z) :
  let once := exec (add_or_update_entry title fid m) w in
  let twice := exec (add_or_update_entry title fid m) once in
  db_file twice = db_file once
  /\ stored twice = stored once
  /\ length (stored twice) = length (stored once).
Proof.
  intros once twice.
  assert (db_file twice = db_file once) as H.
  { subst twice. rewrite db_file_upsert. subst once.
    rewrite db_writable_upsert, stored_upsert, db_file_upsert.
    destruct (db_writable w); [|done]. by rewrite upserted_idempotent. }
  unfold stored. by rewrite H.
Qed.

(** ** Slices *)

Section Slice.
Context {A : Type}.
Implicit Types (l : list A) (a b : Z) (j : nat).

Lemma slice_nonneg l a b :
  0 <= a -> 0 <= b ->
  let len := Z.of_nat (length l) in
  slice l a b
  = take (Z.to_nat (Z.min b len - Z.min a len)) (drop (Z.to_nat (Z.min a len)) l).
Proof.
  intros Ha Hb len. unfold slice, clamp. fold len.
  destruct (Z.ltb_spec a 0); [lia|]. by destruct (Z.ltb_spec b 0); [lia|].
Qed.

Lemma slice_length l a b :
  0 <= a -> 0 <= b ->
  length (slice l a b) = Z.to_nat (Z.min b (Z.of_nat (length l)) - a).
Proof.
  intros Ha Hb. rewrite slice_nonneg by done. simpl.
  rewrite length_take, length_drop. lia.
Qed.

Lemma slice_lookup l a b j :
  0 <= a -> 0 <= b ->
  slice l a b !! j
  = if bool_decide (a + Z.of_nat j < b) then l !! (Z.to_nat a + j)%nat else None.
Proof.
  intros Ha Hb. rewrite slice_nonneg by done. simpl.
  set (len := Z.of_nat (length l)).
  destruct (decide (j < Z.to_nat (Z.min b len - Z.min a len))%nat) as [Hj|Hj].
  - rewrite lookup_take_lt, lookup_drop by done.
    rewrite bool_decide_eq_true_2 by lia. f_equal. lia.
  - rewrite lookup_take_ge by lia. case_bool_decide; [|done].
    symmetry. apply lookup_ge_None_2. lia.
Qed.

Lemma slice_Forall (P : A -> Prop) l a b :
  Forall P l -> Forall P (slice l a b).
Proof. intros H. unfold slice. by apply Forall_take, Forall_drop. Qed.
End Slice.

(** ** C1, C2: the menu *)

Lemma is_record_fields e :
  is_record e = true ->
  exists id title fid m,
    e !! "id" = Some (PStr id) /\ e !! "title" = Some (PStr title)
    /\ e !! "file_id" = Some (PStr fid) /\ e !! "msg_id" = Some (PInt m).
Proof.
  unfold is_record. intros H.
  destruct (e !! "id") as [[|id]|]; try done.
  destruct (e !! "title") as [[|title]|]; try done.
  destruct (e !! "file_id") as [[|fid]|]; try done.
  destruct (e !! "msg_id") as [[m|]|]; try done.
  by exists id, title, fid, m.
Qed.

Lemma entry_row_run e w :
  is_record e = true -> exists r, entry_row e w = (Ok r, w) /\ shows e r.
Proof.
  intros (id & title & fid & m & Hid & Ht & _ & _)%is_record_fields.
  exists [Button (PStr title) ("play:" +:+ id)]. split.
  - unfold entry_row, getitem. by rewrite Ht, Hid.
  - by exists (PStr title), (PStr id).
Qed.

Lemma for_each_entry_row l w :
  records l ->
  exists rows, for_each entry_row l w = (Ok rows, w) /\ Forall2 shows l rows.
Proof.
  induction 1 as [|e l He _ (rows & Hrun & Hrows)]; simpl.
  - by exists [].
  - destruct (entry_row_run e w He) as (r & Hr & Hshow).
    exists (r :: rows). split; [|by constructor].
    rewrite (bind_run _ _ _ _ _ Hr), (bind_run _ _ _ _ _ Hrun).
    apply ret_run.
Qed.

(** What [send_menu_page] does on a store of records that is not empty. *)
Lemma send_menu_page_run PAGE_SIZE chat page w :
  PAGE_SIZE ≠ 0 -> stored w ≠ [] -> records (stored w) ->
  let total := Z.of_nat (length (stored w)) in
  exists rows,
    Forall2 shows
      (slice (stored w) (page * PAGE_SIZE) (page * PAGE_SIZE + PAGE_SIZE)) rows
    /\ send_menu_page PAGE_SIZE chat page w
       = (Ok tt,
          after (load_log w ++
                 [send_message chat "Select a video:"
                    (Some (rows ++ [nav_row PAGE_SIZE total page; [Refresh]]))])
            w).
Proof.
  intros HP Hne Hrec total.
  destruct (for_each_entry_row
              (slice (stored w) (page * PAGE_SIZE) (page * PAGE_SIZE + PAGE_SIZE))
              (after (load_log w) w)) as (rows & Hrun & Hrows).
  { by apply slice_Forall. }
  exists rows. split; [done|].
  unfold send_menu_page. rewrite (bind_run _ _ _ _ _ (load_db_run w)).
  rewrite bool_decide_eq_false_2 by (destruct (stored w); simpl; [done|lia]).
  rewrite (bind_run _ _ _ _ _ Hrun).
  unfold floordiv. rewrite (bool_decide_eq_false_2 (PAGE_SIZE = 0)) by done.
  unfold mret, M_ret, mbind, M_bind, bot_send_message. rewrite emit_run.
  rewrite after_after. unfold nav_row, Prev, Next, Indicator, Refresh.
  by rewrite <- !app_assoc.
Qed.

Lemma nav_row_Prev PAGE_SIZE total page :
  Exists is_Prev (nav_row PAGE_SIZE total page) <-> page > 0.
Proof.
  unfold nav_row. rewrite !Exists_app, Exists_cons, Exists_nil.
  case_bool_decide as Hp; case_bool_decide as Hn;
    rewrite ?Exists_cons, ?Exists_nil; unfold is_Prev; simpl;
    split; intros H; try done; try (by left; left);
    by repeat destruct H as [H|H].
Qed.

Lemma nav_row_Next PAGE_SIZE total page :
  Exists is_Next (nav_row PAGE_SIZE total page)
  <-> page * PAGE_SIZE + PAGE_SIZE < total.
Proof.
  unfold nav_row. rewrite !Exists_app, Exists_cons, Exists_nil.
  case_bool_decide as Hp; case_bool_decide as Hn;
    rewrite ?Exists_cons, ?Exists_nil; unfold is_Next; simpl;
    split; intros H; try done; try (by right; right; left);
    by repeat destruct H as [H|H].
Qed.

Lemma nav_row_Indicator PAGE_SIZE total page :
  Indicator page ((total - 1) `div` PAGE_SIZE + 1) ∈ nav_row PAGE_SIZE total page.
Proof. unfold nav_row. rewrite !elem_of_app, elem_of_cons. auto. Qed.

Lemma nav_row_elem_of PAGE_SIZE total page b :
  b ∈ nav_row PAGE_SIZE total page ->
  b = Prev page \/ b = Indicator page ((total - 1) `div` PAGE_SIZE + 1)
  \/ b = Next page.
Proof.
  unfold nav_row. rewrite !elem_of_app.
  intros [Hb|[Hb|Hb]]; repeat case_bool_decide;
    try (by apply elem_of_nil in Hb);
    apply list_elem_of_singleton in Hb; auto.
Qed.

(** [(total - 1) // PAGE_SIZE + 1] is the ceiling of [total / PAGE_SIZE]. *)
Lemma page_count_ceil PAGE_SIZE total :
  0 < PAGE_SIZE ->
  let count := (total - 1) `div` PAGE_SIZE + 1 in
  (count - 1) * PAGE_SIZE < total <= count * PAGE_SIZE.
Proof.
  intros HP count. subst count.
  pose proof (Z.div_mod (total - 1) PAGE_SIZE ltac:(lia)) as Hdm.
  pose proof (Z.mod_pos_bound (total - 1) PAGE_SIZE HP) as Hm.
  nia.
Qed.

Lemma slice_holds_range (l : list entry) (P i : Z) :
  0 < P -> 0 <= i ->
  holds_range l (slice l (i * P) (i * P + P)) (i * P)
    (Z.min ((i + 1) * P) (Z.of_nat (length l))).
Proof.
  intros HP Hi. split.
  - rewrite slice_length by nia. f_equal. lia.
  - intros k Hk. rewrite slice_lookup by nia.
    rewrite bool_decide_eq_true_2 by lia. f_equal. lia.
Qed.

(** C1. For a store of N > 0 records and a page size P > 0, the menu of page
    [i] (counted from 0) is sent with: the records at the indices
    [i*P, min((i+1)*P, N)) and no others, one row each; the indicator
    [Page i+1/count] in its navigation row, where [count] is the ceiling of
    N/P; and the pages that hold a record are the pages 0, ..., count - 1.
    With 13 records and pages of 6, pages 0, 1 and 2 have 6, 6 and 1 rows. *)
Theorem menu_pages (P chat i : Z) (w : world) :
  0 < P -> stored w ≠ [] -> records (stored w) -> 0 <= i ->
  let N := Z.of_nat (length (stored w)) in
  exists (count : Z) (page : list entry)
         (rows : list (list InlineKeyboardButton))
         (nav : list InlineKeyboardButton),
    (count - 1) * P < N <= count * P
    /\ outcome (send_menu_page P chat i) w = Ok tt
    /\ outbox (exec (send_menu_page P chat i) w)
       = outbox w ++ load_log w ++
         [send_message chat "Select a video:"
            (Some (rows ++ [nav; [Refresh]]))]
    /\ Indicator i count ∈ nav
    /\ holds_range (stored w) page (i * P) (Z.min ((i + 1) * P) N)
    /\ Forall2 shows page rows
    /\ (page ≠ [] <-> i < count)
    /\ (P = 6 -> N = 13 ->
        (i = 0 -> length rows = 6%nat) /\ (i = 1 -> length rows = 6%nat)
        /\ (i = 2 -> length rows = 1%nat)).
Proof.
  intros HP Hne Hrec Hi N.
  destruct (send_menu_page_run P chat i w ltac:(lia) Hne Hrec)
    as (rows & Hrows & Hrun).
  pose proof (page_count_ceil P N HP) as Hceil. simpl in Hceil.
  pose proof (slice_length (stored w) (i * P) (i * P + P)
                ltac:(nia) ltac:(nia)) as Hlen.
  fold N in Hlen, Hrun.
  exists ((N - 1) `div` P + 1), (slice (stored w) (i * P) (i * P + P)),
    rows, (nav_row P N i).
  split; [done|]. split; [by unfold outcome; rewrite Hrun|].
  split; [by unfold exec; rewrite Hrun; simpl; rewrite app_assoc|].
  split; [apply nav_row_Indicator|].
  split; [by apply slice_holds_range|]. split; [done|]. split.
  - rewrite <- length_zero_iff_nil, Hlen. nia.
  - intros -> HN. rewrite <- (Forall2_length _ _ _ Hrows), Hlen, HN.
    repeat split; by intros ->.
Qed.

(** C2. For a store of records that is not empty and any page index, the
    navigation row of the menu has a Prev control exactly when the page index
    is greater than 0, and a Next control exactly when the end index of the
    slice is less than the number of records; they lead to the pages before
    and after.  With 13 records and pages of 6, page 1 has both controls and
    page 2 has Prev alone. *)
Theorem nav_controls (P chat page : Z) (w : world) :
  P ≠ 0 -> stored w ≠ [] -> records (stored w) ->
  let N := Z.of_nat (length (stored w)) in
  exists (rows : list (list InlineKeyboardButton))
         (nav : list InlineKeyboardButton),
    outcome (send_menu_page P chat page) w = Ok tt
    /\ outbox (exec (send_menu_page P chat page) w)
       = outbox w ++ load_log w ++
         [send_message chat "Select a video:"
            (Some (rows ++ [nav; [Refresh]]))]
    /\ (Exists is_Prev nav <-> page > 0)
    /\ (Exists is_Next nav <-> page * P + P < N)
    /\ (forall b, b ∈ nav -> is_Prev b -> b = Prev page)
    /\ (forall b, b ∈ nav -> is_Next b -> b = Next page)
    /\ (P = 6 -> N = 13 ->
        (page = 1 -> Exists is_Prev nav /\ Exists is_Next nav)
        /\ (page = 2 -> Exists is_Prev nav /\ ~ Exists is_Next nav)).
Proof.
  intros HP Hne Hrec N.
  destruct (send_menu_page_run P chat page w HP Hne Hrec)
    as (rows & Hrows & Hrun).
  fold N in Hrun. exists rows, (nav_row P N page).
  split; [by unfold outcome; rewrite Hrun|].
  split; [by unfold exec; rewrite Hrun; simpl; rewrite app_assoc|].
  split; [apply nav_row_Prev|]. split; [apply nav_row_Next|].
  split; [|split].
  - intros b Hb Hprev. by destruct (nav_row_elem_of _ _ _ _ Hb) as [-> | [-> | ->]].
  - intros b Hb Hnext. by destruct (nav_row_elem_of _ _ _ _ Hb) as [-> | [-> | ->]].
  - intros -> HN. rewrite nav_row_Prev, nav_row_Next, HN.
    split; intros ->; lia.
Qed.

(** ** C6, C9: callbacks *)

Lemma find_by_id_none vid l w :
  no_such_id vid l -> find_by_id vid l w = (Ok None, w).
Proof.
  induction 1 as [|e l (id & Hid & Hne) _ IH]; simpl; [done|].
  unfold getitem. rewrite Hid.
  unfold mbind, M_bind, mret, M_ret. by rewrite Hne.
Qed.

Lemma split_once_play vid : split_once ":" ("play:" +:+ vid) = ["play"; vid].
Proof. done. Qed.

Lemma split_once_page sfx : split_once ":" ("page:" +:+ sfx) = ["page"; sfx].
Proof. done. Qed.

Lemma play_prefix vid : startswith ("play:" +:+ vid) "play:" = true.
Proof. reflexivity. Qed.

Lemma play_not_page vid : startswith ("play:" +:+ vid) "page:" = false.
Proof. reflexivity. Qed.

Lemma page_prefix sfx : startswith ("page:" +:+ sfx) "page:" = true.
Proof. reflexivity. Qed.

(** C6. For a callback [play:<id>] on a store in which no record has that
    id (the empty store among them), the handler answers the query, replies
    "Video not found. Try Refresh." and leaves the backing file as it was. *)
Theorem play_missing_id (P : Z) (int : string -> option Z)
    (upd : Update) (query : CallbackQuery) (vid : string) (w : world) :
  callback_query upd = Some query ->
  data query = Some ("play:" +:+ vid) ->
  no_such_id vid (stored w) ->
  let w' := exec (callback_handler P int upd) w in
  outcome (callback_handler P int upd) w = Ok tt
  /\ outbox w'
     = outbox w ++ [answer] ++ load_log w
       ++ [reply_text "Video not found. Try Refresh."]
  /\ db_file w' = db_file w.
Proof.
  intros Hq Hd Hno w'. subst w'.
  assert (callback_handler P int upd w
          = (Ok tt, after ([answer] ++ load_log w
                           ++ [reply_text "Video not found. Try Refresh."]) w))
    as Hrun.
  { unfold callback_handler. rewrite Hq, Hd.
    rewrite (bind_run _ _ _ _ _ (emit_run answer w)).
    rewrite !bool_decide_eq_false_2 by done.
    rewrite play_not_page, play_prefix, split_once_play. simpl.
    rewrite (bind_run _ _ _ _ _ (ret_run vid _)).
    rewrite (bind_run _ _ _ _ _ (load_db_run _)).
    rewrite (bind_run _ _ _ _ _ (find_by_id_none vid _ _ Hno)).
    by rewrite emit_run, !after_after. }
  unfold outcome, exec. by rewrite Hrun.
Qed.

Lemma send_menu_page_ok P chat page w :
  P ≠ 0 -> records (stored w) -> outcome (send_menu_page P chat page) w = Ok tt.
Proof.
  intros HP Hrec. destruct (decide (stored w = [])) as [Hnil|Hne].
  - unfold outcome, send_menu_page.
    rewrite (bind_run _ _ _ _ _ (load_db_run w)), Hnil. done.
  - destruct (send_menu_page_run P chat page w HP Hne Hrec) as (rows & _ & Hrun).
    unfold outcome. by rewrite Hrun.
Qed.

Lemma parse_page_run int sfx w :
  try_except (parse_page int ("page:" +:+ sfx)) (fun _ => mret 0) w
  = (Ok (default 0 (int sfx)), w).
Proof.
  unfold try_except, parse_page. rewrite split_once_page. simpl.
  rewrite (bind_run _ _ _ _ _ (ret_run sfx w)).
  by destruct (int sfx).
Qed.

(** C9. For a callback [page:<n>] the handler answers the query, deletes
    the menu and renders a page: page 0 when [int] raises on the suffix, and
    then the handler itself does not raise (on a store of records); page [n]
    when [int] returns [n]. *)
Theorem page_callback (P : Z) (int : string -> option Z)
    (upd : Update) (query : CallbackQuery) (sfx : string) (w : world) :
  callback_query upd = Some query ->
  data query = Some ("page:" +:+ sfx) ->
  let render (n : Z) : M unit :=
    emit answer;; emit delete;; send_menu_page P (chat_id (message query)) n in
  (int sfx = None ->
     callback_handler P int upd w = render 0 w
     /\ (P ≠ 0 -> records (stored w) ->
         outcome (callback_handler P int upd) w = Ok tt))
  /\ (forall n : Z, int sfx = Some n ->
        callback_handler P int upd w = render n w).
Proof.
  intros Hq Hd render.
  assert (callback_handler P int upd w = render (default 0 (int sfx)) w) as Hrun.
  { unfold callback_handler, render. rewrite Hq, Hd.
    rewrite !(bind_run _ _ _ _ _ (emit_run answer w)).
    rewrite !bool_decide_eq_false_2 by done. rewrite page_prefix. simpl.
    by rewrite (bind_run _ _ _ _ _ (parse_page_run int sfx _)). }
  split.
  - intros Hnone. rewrite Hnone in Hrun. split; [done|].
    intros HP Hrec. unfold outcome. rewrite Hrun. unfold render.
    rewrite (bind_run _ _ _ _ _ (emit_run answer w)).
    rewrite (bind_run _ _ _ _ _ (emit_run delete _)).
    by apply send_menu_page_ok.
  - intros n Hn. by rewrite Hn in Hrun.
Qed.

(** ** C7, C8: channel posts *)

(** C7. A channel post that carries no document, no video and no photo, and
    a channel post that comes from another channel than [CHANNEL_ID], leave
    the backing file as it was; the listener returns normally. *)
Theorem ignored_post_leaves_store (CHANNEL_ID : Z) (upd : Update) (w : world) :
  (forall msg, channel_post upd = Some msg ->
     chat_id msg ≠ CHANNEL_ID
     \/ (document msg = None /\ video msg = None /\ photo msg = [])) ->
  outcome (channel_post_listener CHANNEL_ID upd) w = Ok tt
  /\ db_file (exec (channel_post_listener CHANNEL_ID upd) w) = db_file w.
Proof.
  intros H. unfold outcome, exec, channel_post_listener.
  destruct (channel_post upd) as [msg|]; [|done].
  destruct (H msg eq_refl) as [Hch|(Hd & Hv & Hp)].
  - by rewrite bool_decide_eq_true_2.
  - case_bool_decide; [done|]. by rewrite Hd, Hv, Hp.
Qed.

Lemma has_msg_id_true m e : has_msg_id m e = true -> e !! "msg_id" = Some (PInt m).
Proof.
  unfold has_msg_id, eq_int. destruct (e !! "msg_id") as [[n|]|]; try done.
  by intros ->%bool_decide_eq_true.
Qed.

(** After an upsert that reaches the file, the first record of the message
    carries the title and the file reference of the call. *)
Lemma find_upserted title fid m l :
  exists e, List.find (has_msg_id m) (upserted title fid m l) = Some e
    /\ e !! "msg_id" = Some (PInt m)
    /\ e !! "title" = Some (PStr title)
    /\ e !! "file_id" = Some (PStr fid).
Proof.
  unfold upserted. induction l as [|e l IH]; simpl.
  - exists (new_entry title fid m). rewrite has_msg_id_new_entry.
    by rewrite bool_decide_eq_true_2.
  - fold (has_msg_id m e). destruct (has_msg_id m e) eqn:He.
    + exists (update e title fid). simpl. rewrite has_msg_id_update, He.
      rewrite update_other_key by done.
      repeat split; auto using has_msg_id_true, update_title, update_file_id.
    + destruct (update_first title fid m l) as [l'|]; simpl; by rewrite He.
Qed.

Lemma find_elem_of (f : entry -> bool) l e : List.find f l = Some e -> e ∈ l.
Proof. intros [H _]%List.find_some. by apply list_elem_of_In. Qed.

(** C8, as amended. For a post of [CHANNEL_ID] that carries a document, else
    a video, else photos, the listener upserts one record for the message:
    its title is the caption with the white space around it stripped when
    that leaves something, and otherwise (no caption, or nothing but white
    space) the placeholder "Document n", "Video n" or "Photo n" for the
    message id n; its file reference is that of the document, of the video,
    or of the last of the photo variants.  The record is in the store
    afterwards when the file can be written. *)
Theorem post_title_and_file (CHANNEL_ID : Z) (upd : Update) (msg : Message)
    (kind : string) (att : attachment) (w : world) :
  channel_post upd = Some msg ->
  chat_id msg = CHANNEL_ID ->
  (document msg = Some att /\ kind = "Document")
  \/ (document msg = None /\ video msg = Some att /\ kind = "Video")
  \/ (document msg = None /\ video msg = None
      /\ last (photo msg) = Some att /\ kind = "Photo") ->
  exists title format : string,
    channel_post_listener CHANNEL_ID upd w
    = (add_or_update_entry title (file_id att) (message_id msg);;
       logger INFO format) w
    /\ (strip (default "" (caption msg)) ≠ "" ->
        title = strip (default "" (caption msg)))
    /\ (strip (default "" (caption msg)) = "" ->
        title = placeholder kind (message_id msg))
    /\ (db_writable w = true ->
        exists e, e ∈ stored (exec (channel_post_listener CHANNEL_ID upd) w)
          /\ e !! "msg_id" = Some (PInt (message_id msg))
          /\ e !! "title" = Some (PStr title)
          /\ e !! "file_id" = Some (PStr (file_id att))).
Proof.
  intros Hpost Hch Hmedia.
  set (c := strip (default "" (caption msg))).
  set (title := str_or c (placeholder kind (message_id msg))).
  assert (exists format,
    channel_post_listener CHANNEL_ID upd w
    = (add_or_update_entry title (file_id att) (message_id msg);;
       logger INFO format) w) as [format Hrun].
  { unfold channel_post_listener. rewrite Hpost.
    rewrite bool_decide_eq_false_2 by (by intros ?).
    fold c. subst title. unfold placeholder.
    destruct Hmedia as [(-> & ->)|[(-> & -> & ->)|(-> & -> & Hlast & ->)]];
      [by eexists| by eexists|].
    rewrite bool_decide_eq_true_2
      by (intros Hnil; by rewrite Hnil in Hlast).
    exists "Saved photo: %s". unfold index_last. by rewrite Hlast. }
  exists title, format. split; [done|]. split; [|split].
  - intros Hc. subst title. unfold str_or. by rewrite bool_decide_eq_false_2.
  - intros Hc. subst title. unfold str_or. by rewrite bool_decide_eq_true_2.
  - intros Hwr. unfold exec. rewrite Hrun.
    rewrite (bind_run _ _ _ _ _ (add_or_update_entry_run _ _ _ _)).
    unfold logger. rewrite emit_run. cbn [snd].
    rewrite stored_after, stored_saved. cbn [after db_writable]. rewrite Hwr.
    destruct (find_upserted title (file_id att) (message_id msg) (stored w))
      as (e & Hfind & ?). exists e. split; [|done].
    by apply find_elem_of in Hfind.
Qed.

(** ** C10: ids *)

Lemma str_eq (m n : Z) : bool_decide (str m = str n) = bool_decide (m = n).
Proof.
  apply bool_decide_ext. split; [|by intros ->].
  unfold str. apply (inj pretty).
Qed.

(** On such a store the lookup by id of the handler is the lookup by
    [msg_id]. *)
Lemma find_by_id_keyed m l w :
  keyed l -> find_by_id (str m) l w = (Ok (List.find (has_msg_id m) l), w).
Proof.
  induction 1 as [|e l (n & Hn & Hid) _ IH]; simpl; [done|].
  unfold getitem. rewrite Hid. unfold mbind, M_bind, mret, M_ret.
  unfold has_msg_id, eq_int, eq_str. rewrite Hn, str_eq.
  by case_bool_decide.
Qed.

Lemma keyed_upserted title fid m l : keyed l -> keyed (upserted title fid m l).
Proof.
  unfold upserted. intros Hl.
  destruct (update_first title fid m l) as [l'|] eqn:H.
  - destruct (update_first_Some _ _ _ _ _ H) as (i & e & Hi & _ & _ & ->).
    apply Forall_insert; [done|].
    rewrite !update_other_key by done.
    by apply (Forall_lookup_1 _ _ _ _ Hl Hi).
  - apply Forall_app. split; [done|]. apply Forall_singleton.
    exists m. unfold new_entry. split; [apply lookup_insert_eq|].
    by rewrite !lookup_insert_ne by done.
Qed.

(** C10. A record that [add_or_update_entry] creates has the decimal numeral
    of its [msg_id] as [id]; an update in place changes the fields [title]
    and [file_id] and no other, so [id] and [msg_id] stay.  Hence on a store
    filled by [add_or_update_entry], once a message has been upserted (and
    written), the lookup of [play:<id>] with the numeral of the message id
    finds the record of that message, with the title and the file reference
    of the upsert. *)
Theorem upsert_id_lookup (w : world) (title fid : string) (m : Z) :
  keyed (stored w) -> db_writable w = true ->
  let w' := exec (add_or_update_entry title fid m) w in
  new_entry title fid m !! "id" = Some (PStr (str m))
  /\ new_entry title fid m !! "msg_id" = Some (PInt m)
  /\ (forall (e : entry) (k : string),
        k ≠ "title" -> k ≠ "file_id" -> update e title fid !! k = e !! k)
  /\ ((exists (i : nat) (e : entry),
          stored w !! i = Some e
          /\ stored w' = <[i := update e title fid]> (stored w))
      \/ stored w' = stored w ++ [new_entry title fid m])
  /\ keyed (stored w')
  /\ exists e : entry,
       find_by_id (str m) (stored w') w' = (Ok (Some e), w')
       /\ e !! "msg_id" = Some (PInt m)
       /\ e !! "id" = Some (PStr (str m))
       /\ e !! "title" = Some (PStr title)
       /\ e !! "file_id" = Some (PStr fid).
Proof.
  intros Hkeyed Hwr w'. subst w'. rewrite stored_upsert, Hwr.
  pose proof (keyed_upserted title fid m _ Hkeyed) as Hkeyed'.
  split; [by unfold new_entry; rewrite !lookup_insert_ne by done|].
  split; [apply lookup_insert_eq|].
  split; [by intros; apply update_other_key|]. split; [|split; [done|]].
  - unfold upserted.
    destruct (update_first title fid m (stored w)) as [l'|] eqn:H; [|by right].
    left. destruct (update_first_Some _ _ _ _ _ H) as (i & e & ? & _ & _ & ?).
    by exists i, e.
  - destruct (find_upserted title fid m (stored w)) as (e & Hfind & Hm & Ht & Hf).
    exists e. rewrite (find_by_id_keyed m _ _ Hkeyed'), Hfind.
    repeat split; try done.
    apply find_elem_of in Hfind.
    destruct (proj1 (Forall_forall _ _) Hkeyed' e Hfind) as (n & Hn & Hid).
    rewrite Hn in Hm. by injection Hm as ->.
Qed.

(** * The properties at concrete inputs *)

Lemma records_thirteen : records (stored demo_world).
Proof. apply (bool_decide_unpack _). vm_compute. exact I. Defined.

Lemma menu_pages_witness :
  exists rows nav,
    outbox (exec (send_menu_page 6 7 2) demo_world)
    = [send_message 7 "Select a video:" (Some (rows ++ [nav; [Refresh]]))]
    /\ length rows = 1%nat.
Proof.
  destruct (menu_pages 6 7 2 demo_world)
    as (count & page & rows & nav & _ & _ & Hout & _ & _ & _ & _ & Hex);
    [lia | discriminate | apply records_thirteen | lia |].
  exists rows, nav. split; [exact Hout|].
  by apply Hex.
Defined.

Lemma nav_controls_witness :
  exists rows nav,
    outbox (exec (send_menu_page 6 7 1) demo_world)
    = [send_message 7 "Select a video:" (Some (rows ++ [nav; [Refresh]]))]
    /\ Exists is_Prev nav /\ Exists is_Next nav.
Proof.
  destruct (nav_controls 6 7 1 demo_world)
    as (rows & nav & _ & Hout & _ & _ & _ & _ & Hex);
    [lia | discriminate | apply records_thirteen |].
  exists rows, nav. split; [exact Hout|].
  by apply Hex.
Defined.

Lemma one_per_msg_id_two : one_per_msg_id (stored small_world).
Proof.
  intros v. unfold small_world, stored, two_records. simpl.
  rewrite !count_msg_id_cons, !has_msg_id_new_entry.
  unfold count_msg_id. repeat case_bool_decide; simpl; lia.
Defined.

Lemma upsert_keeps_one_per_msg_id_witness :
  one_per_msg_id
    (stored (exec (add_or_update_entry "finale" "F3" 2) small_world)).
Proof.
  destruct (upsert_keeps_one_per_msg_id small_world "finale" "F3" 2
              one_per_msg_id_two) as [H _].
  exact H.
Defined.

Lemma play_missing_id_witness :
  outbox (exec (main.callback_handler (press "play:9")) small_world)
  = [answer; reply_text "Video not found. Try Refresh."]
  /\ db_file (exec (main.callback_handler (press "play:9")) small_world)
     = db_file small_world.
Proof.
  destruct (play_missing_id main.PAGE_SIZE ascii_int (press "play:9")
              (Build_CallbackQuery (Some "play:9") menu_message) "9"
              small_world) as (_ & Hout & Hfile).
  - reflexivity.
  - reflexivity.
  - repeat constructor; eexists; split; reflexivity.
  - split; [exact Hout | exact Hfile].
Defined.

Lemma ignored_post_leaves_store_witness :
  db_file (exec (main.channel_post_listener (channel text_post)) small_world)
  = db_file small_world.
Proof.
  destruct (ignored_post_leaves_store main.CHANNEL_ID (channel text_post)
              small_world) as [_ H].
  - intros msg Hmsg. injection Hmsg as <-. right. repeat split; reflexivity.
  - exact H.
Defined.

Lemma page_callback_witness :
  outcome (main.callback_handler (press "page:two")) demo_world = Ok tt.
Proof.
  destruct (page_callback main.PAGE_SIZE ascii_int (press "page:two")
              (Build_CallbackQuery (Some "page:two") menu_message) "two"
              demo_world eq_refl eq_refl) as [Hnone _].
  destruct (Hnone eq_refl) as [_ Hok].
  apply Hok; [discriminate | apply records_thirteen].
Defined.

Lemma keyed_two : keyed (stored small_world).
Proof. repeat constructor; eexists; split; reflexivity. Defined.

Lemma upsert_id_lookup_witness :
  let w' := exec (add_or_update_entry "finale" "F3" 2) small_world in
  exists e, find_by_id "2" (stored w') w' = (Ok (Some e), w')
    /\ e !! "title" = Some (PStr "finale")
    /\ e !! "file_id" = Some (PStr "F3").
Proof.
  destruct (upsert_id_lookup small_world "finale" "F3" 2 keyed_two eq_refl)
    as (_ & _ & _ & _ & _ & e & Hfind & _ & _ & Ht & Hf).
  exists e. split; [exact Hfind|]. split; [exact Ht | exact Hf].
Defined.

(** C8, as the claim states it, fails: the caption [" a"] is present and the
    title stored is ["a"], not the caption; the caption ["  "] is present
    and the title stored is the placeholder. *)
Lemma caption_title_counterexample :
  (caption padded_post = Some " a"
   /\ exists e,
        stored (exec (main.channel_post_listener (channel padded_post))
                  fresh_world) = [e]
        /\ e !! "title" = Some (PStr "a")
        /\ e !! "title" ≠ Some (PStr " a"))
  /\ (caption blank_post = Some "  "
      /\ exists e,
           stored (exec (main.channel_post_listener (channel blank_post))
                     fresh_world) = [e]
           /\ e !! "title" = Some (PStr "Video 6")
           /\ e !! "title" ≠ Some (PStr "  ")).
Proof.
  split; (split; [reflexivity|]).
  - exists (new_entry "a" "F5" 5). split; [by vm_compute|].
    split; [by vm_compute|]. by vm_compute.
  - exists (new_entry "Video 6" "F6" 6). split; [by vm_compute|].
    split; [by vm_compute|]. by vm_compute.
Qed.

Lemma post_title_and_file_witness :
  exists e,
    e ∈ stored (exec (main.channel_post_listener (channel padded_post))
                  fresh_world)
    /\ e !! "title" = Some (PStr "a") /\ e !! "file_id" = Some (PStr "F5").
Proof.
  destruct (post_title_and_file main.CHANNEL_ID (channel padded_post)
              padded_post "Document" (Attachment "F5") fresh_world)
    as (title & format & _ & Htitle & _ & Hstored).
  - reflexivity.
  - reflexivity.
  - left. split; reflexivity.
  - destruct (Hstored eq_refl) as (e & He & _ & Ht & Hf).
    exists e. split; [exact He|]. split; [|exact Hf].
    rewrite Ht. rewrite Htitle; [reflexivity | by vm_compute].
Defined.

(** ** The embedding at work *)

Example strip_examples :
  strip ("  two words " +:+ String "009"%char "") = "two words"
  /\ strip " " = "" /\ strip "" = "" /\ strip "a" = "a".
Proof. by vm_compute. Qed.

Example split_once_examples :
  split_once ":" "page:1:2" = ["page"; "1:2"]
  /\ split_once ":" "noop" = ["noop"] /\ split_once ":" "play:" = ["play"; ""].
Proof. by vm_compute. Qed.

Example str_examples : str 0 = "0" /\ str 13 = "13" /\ str (-12) = "-12".
Proof. by vm_compute. Qed.

Example ascii_int_examples :
  ascii_int <$> [" 12"; "-3"; "1_0"; "007"; "+5 "; "1__0"; "_1"; "1_"; ""; "two"]
  = [Some 12; Some (-3); Some 10; Some 7; Some 5; None; None; None; None; None].
Proof. by vm_compute. Qed.

Example slice_examples :
  slice [1; 2; 3] 0 6 = [1; 2; 3] /\ slice [1; 2; 3] 6 12 = []
  /\ slice [1; 2; 3; 4] 1 3 = [2; 3] /\ slice [1; 2; 3; 4] (-3) (-1) = [2; 3].
Proof. by vm_compute. Qed.

(** A negative page index, which the callback [page:-2] reaches, is not one
    of the pages of C1: Python counts a negative slice bound from the end of
    the list, so the menu then shows the records 1 to 6 of thirteen. *)
Example negative_page_slice :
  slice thirteen_records (-2 * main.PAGE_SIZE) (-2 * main.PAGE_SIZE + main.PAGE_SIZE)
  = take 6 (drop 1 thirteen_records).
Proof. by vm_compute. Qed.

(** Two posts fill an empty store; a post of the same message rewrites its
    record in place. *)
Example posts_fill_the_store :
  let w1 := exec (main.channel_post_listener (channel padded_post)) fresh_world in
  let w2 := exec (main.channel_post_listener (channel blank_post)) w1 in
  let w3 := exec (main.channel_post_listener (channel padded_post)) w2 in
  stored w2 = [new_entry "a" "F5" 5; new_entry "Video 6" "F6" 6]
  /\ stored w3 = stored w2
  /\ outbox w3 = [log INFO "Saved document: %s"; log INFO "Saved video: %s";
                  log INFO "Saved document: %s"].
Proof. by vm_compute. Qed.

(** Pressing the button of a stored record sends its document; when the
    platform refuses it the user gets the generic reply. *)
Example play_sends_the_document :
  outbox (exec (main.callback_handler (press "play:2")) small_world)
  = [answer; send_document 7 (Some (PStr "F2")) "outro.mp4" (PStr "outro")]
  /\ outbox (exec (main.callback_handler (press "play:2"))
               (World (db_file small_world) true (fun _ => false) []))
     = [answer; log ERROR "Failed to send document: %s";
        reply_text "Failed to send video. It might be protected or file_id expired. Re-upload to channel if needed."].
Proof. by vm_compute. Qed.

(** The last page of thirteen records. *)
Example last_page_menu :
  outbox (exec (main.callback_handler (press "page:2")) demo_world)
  = [answer; delete;
     send_message 7 "Select a video:"
       (Some [[Button (PStr "clip 13") "play:13"];
              [Prev 2; Indicator 2 3];
              [Refresh]])].
Proof. by vm_compute. Qed.

(** A record without title makes the menu raise [KeyError]. *)
Example menu_of_a_broken_record :
  outcome (main.send_menu_page 7 0)
    (World (Parsed (JList [{["id" := PStr "1"]}])) true (fun _ => true) [])
  = Raise (KeyError "title").
Proof. by vm_compute. Qed.

(** * Further properties of the script *)

(** ** The store *)

Lemma find_cons (f : entry -> bool) e l :
  List.find f (e :: l) = if f e then Some e else List.find f l.
Proof. done. Qed.

Lemma has_msg_id_exclusive m m' e :
  m' ≠ m -> has_msg_id m e = true -> has_msg_id m' e = false.
Proof.
  intros Hne Hm%has_msg_id_true. unfold has_msg_id, eq_int. rewrite Hm.
  by apply bool_decide_eq_false_2.
Qed.

Lemma find_other_upserted title fid m m' l :
  m' ≠ m ->
  List.find (has_msg_id m') (upserted title fid m l)
  = List.find (has_msg_id m') l.
Proof.
  intros Hne. unfold upserted. induction l as [|e l IH]; simpl.
  - by rewrite has_msg_id_new_entry, bool_decide_eq_false_2.
  - fold (has_msg_id m e). destruct (has_msg_id m e) eqn:He.
    + rewrite find_cons, has_msg_id_update.
      by rewrite (has_msg_id_exclusive m m' e Hne He).
    + destruct (update_first title fid m l) as [l'|]; simpl in *;
        by rewrite IH.
Qed.

Lemma count_other_upserted title fid m m' l :
  m' ≠ m ->
  count_msg_id m' (upserted title fid m l) = count_msg_id m' l.
Proof.
  intros Hne. unfold upserted.
  destruct (update_first title fid m l) as [l'|] eqn:H.
  - by apply (update_first_count title fid m).
  - rewrite count_msg_id_app, count_msg_id_cons, has_msg_id_new_entry.
    rewrite bool_decide_eq_false_2 by done. unfold count_msg_id. simpl. lia.
Qed.

Lemma lookup_other_upserted title fid m l (i : nat) (e : entry) :
  l !! i = Some e -> has_msg_id m e = false ->
  upserted title fid m l !! i = Some e.
Proof.
  intros Hi He. unfold upserted.
  destruct (update_first title fid m l) as [l'|] eqn:H.
  - destruct (update_first_Some _ _ _ _ _ H) as (j & e' & Hj & He' & _ & ->).
    rewrite list_lookup_insert_ne; [done|].
    intros <-. rewrite Hi in Hj. injection Hj as <-. congruence.
  - by apply lookup_app_l_Some.
Qed.

(** X1. What [save_db] writes, [load_db] reads back: on a file that can be
    written, loading after saving [entries] returns [entries], whatever the
    file held before, and nothing is logged. *)
Theorem save_then_load (entries : list entry) (w : world) :
  db_writable w = true ->
  outcome (save_db entries;; load_db) w = Ok entries
  /\ outbox (exec (save_db entries;; load_db) w) = outbox w.
Proof.
  intros Hwr. unfold outcome, exec.
  rewrite (bind_run _ _ _ _ _ (save_db_run entries w)), load_db_run.
  unfold saved. rewrite Hwr. simpl. by rewrite app_nil_r.
Qed.

(** X2. When the backing file cannot be opened for writing,
    [add_or_update_entry] still returns normally: the file is what it was,
    the change is lost and the failure is logged as an error. *)
Theorem upsert_unwritable (w : world) (title fid : string) (m : Z) :
  db_writable w = false ->
  let w' := exec (add_or_update_entry title fid m) w in
  outcome (add_or_update_entry title fid m) w = Ok tt
  /\ db_file w' = db_file w
  /\ outbox w' = outbox w ++ load_log w ++ [log ERROR "Failed to save DB: %s"].
Proof.
  intros Hwr w'. subst w'. unfold outcome, exec.
  rewrite add_or_update_entry_run. unfold saved. simpl. rewrite Hwr. simpl.
  by rewrite app_assoc.
Qed.

(** X3. An upsert for the message [m] leaves every other message alone: a
    record that is not of [m] keeps its place and its contents, and for any
    other message id the first record found and the number of records are
    the same as before. *)
Theorem upsert_leaves_other_messages (w : world) (title fid : string) (m : Z) :
  let w' := exec (add_or_update_entry title fid m) w in
  (forall (i : nat) (e : entry),
      stored w !! i = Some e -> has_msg_id m e = false ->
      stored w' !! i = Some e)
  /\ (forall m' : Z, m' ≠ m ->
        List.find (has_msg_id m') (stored w')
        = List.find (has_msg_id m') (stored w)
        /\ count_msg_id m' (stored w') = count_msg_id m' (stored w)).
Proof.
  intros w'. subst w'. rewrite stored_upsert.
  destruct (db_writable w); [|done]. split.
  - intros i e. apply lookup_other_upserted.
  - intros m' Hne. split;
      [by apply find_other_upserted | by apply count_other_upserted].
Qed.

Lemma update_overwrite e t1 f1 t2 f2 :
  update (update e t1 f1) t2 f2 = update e t2 f2.
Proof.
  apply map_eq; intros k. unfold update.
  rewrite !lookup_insert. by repeat case_decide.
Qed.

Lemma update_new_entry_overwrite t1 f1 t2 f2 m :
  update (new_entry t1 f1 m) t2 f2 = new_entry t2 f2 m.
Proof.
  apply map_eq; intros k. unfold update, new_entry.
  rewrite !lookup_insert. repeat case_decide; congruence.
Qed.

Lemma update_first_overwrite t1 f1 t2 f2 m l l1 :
  update_first t1 f1 m l = Some l1 ->
  exists l2, update_first t2 f2 m l1 = Some l2
             /\ update_first t2 f2 m l = Some l2.
Proof.
  revert l1. induction l as [|e l IH]; intros l1 H; simpl in H; [done|].
  fold (has_msg_id m e) in H. destruct (has_msg_id m e) eqn:He.
  - injection H as <-. exists (update e t2 f2 :: l). simpl.
    fold (has_msg_id m (update e t1 f1)). fold (has_msg_id m e).
    by rewrite has_msg_id_update, He, update_overwrite.
  - destruct (update_first t1 f1 m l) as [r|]; [|done].
    injection H as <-. destruct (IH r eq_refl) as (l2 & H1 & H2).
    exists (e :: l2). simpl. fold (has_msg_id m e).
    by rewrite He, H1, H2.
Qed.

Lemma update_first_overwrite_new t1 f1 t2 f2 m l :
  update_first t1 f1 m l = None ->
  update_first t2 f2 m (l ++ [new_entry t1 f1 m])
  = Some (l ++ [new_entry t2 f2 m])
  /\ update_first t2 f2 m l = None.
Proof.
  induction l as [|e l IH]; simpl.
  - intros _. fold (has_msg_id m (new_entry t1 f1 m)).
    rewrite has_msg_id_new_entry, bool_decide_eq_true_2 by done.
    by rewrite update_new_entry_overwrite.
  - fold (has_msg_id m e). destruct (has_msg_id m e); [done|].
    destruct (update_first t1 f1 m l); [done|].
    intros _. destruct (IH eq_refl) as [-> ->]. done.
Qed.

Lemma upserted_overwrite t1 f1 t2 f2 m l :
  upserted t2 f2 m (upserted t1 f1 m l) = upserted t2 f2 m l.
Proof.
  unfold upserted at 2.
  destruct (update_first t1 f1 m l) as [l1|] eqn:H; unfold upserted.
  - destruct (update_first_overwrite _ _ t2 f2 _ _ _ H) as (l2 & -> & ->).
    done.
  - destruct (update_first_overwrite_new _ _ t2 f2 _ _ H) as [-> ->]. done.
Qed.

Lemma upserted_length title fid m l :
  length (upserted title fid m l)
  = (length l + if bool_decide (count_msg_id m l = 0%nat) then 1 else 0)%nat.
Proof.
  unfold upserted.
  destruct (update_first title fid m l) as [l'|] eqn:H.
  - destruct (update_first_Some _ _ _ _ _ H) as (i & e & Hi & He & Hc & ->).
    rewrite length_insert, bool_decide_eq_false_2; [lia|].
    rewrite <- (take_drop_middle l i e Hi), count_msg_id_app, count_msg_id_cons, He.
    lia.
  - by rewrite length_app, (update_first_None _ _ _ _ H).
Qed.

Lemma upserted_count_mono title fid m l v :
  (count_msg_id v l <= count_msg_id v (upserted title fid m l))%nat.
Proof.
  unfold upserted.
  destruct (update_first title fid m l) as [l'|] eqn:H.
  - by rewrite (update_first_count _ _ _ _ _ v H).
  - rewrite count_msg_id_app. lia.
Qed.

(** X4. The last write wins: upserting a message and then upserting it again
    with another title and file reference leaves the backing file exactly as
    the second upsert alone would have left it. *)
Theorem upsert_last_write_wins (w : world) (t1 f1 t2 f2 : string) (m : Z) :
  db_file (exec (add_or_update_entry t2 f2 m)
             (exec (add_or_update_entry t1 f1 m) w))
  = db_file (exec (add_or_update_entry t2 f2 m) w).
Proof.
  rewrite !db_file_upsert, db_writable_upsert, stored_upsert.
  destruct (db_writable w); [|done]. by rewrite upserted_overwrite.
Qed.

(** X5. The store never loses a record to an upsert: the number of records
    grows by one when the file can be written and no record has the message
    id, and stays what it was otherwise; and no message id has fewer records
    than before. *)
Theorem upsert_never_deletes (w : world) (title fid : string) (m : Z) :
  let w' := exec (add_or_update_entry title fid m) w in
  length (stored w')
  = (length (stored w)
     + if db_writable w && bool_decide (count_msg_id m (stored w) = 0%nat)
       then 1 else 0)%nat
  /\ forall v : Z, (count_msg_id v (stored w) <= count_msg_id v (stored w'))%nat.
Proof.
  intros w'. subst w'. rewrite stored_upsert.
  destruct (db_writable w); simpl; [|split; [lia | done]].
  split; [apply upserted_length | intros v; apply upserted_count_mono].
Qed.

(** X6. A backing file that is missing, cannot be parsed, or holds something
    that is not a list is overwritten by the first upsert: afterwards it
    holds the list of the one new record, and what it held is gone. *)
Theorem upsert_overwrites_bad_file (w : world) (title fid : string) (m : Z) :
  (forall l, db_file w ≠ Parsed (JList l)) ->
  db_writable w = true ->
  db_file (exec (add_or_update_entry title fid m) w)
  = Parsed (JList [new_entry title fid m]).
Proof.
  intros Hbad Hwr. rewrite db_file_upsert, Hwr.
  assert (stored w = []) as ->; [|done].
  unfold stored. destruct (db_file w) as [| |[l|]]; try done.
  by destruct (Hbad l).
Qed.

(** ** What the reading handlers leave alone *)

Lemma only_emits_ret {A} (a : A) : only_emits (mret a : M A).
Proof. intros w. exists []. by rewrite after_nil. Qed.

Lemma only_emits_raise {A} (e : exn) : only_emits (raise e : M A).
Proof. intros w. exists []. by rewrite after_nil. Qed.

Lemma only_emits_emit ev : only_emits (emit ev).
Proof. intros w. by exists [ev]. Qed.

Lemma only_emits_bind {A B} (m : M A) (f : A -> M B) :
  only_emits m -> (forall a, only_emits (f a)) -> only_emits (m ≫= f).
Proof.
  intros Hm Hf w. destruct (Hm w) as [evs Hevs]. unfold exec in *.
  unfold mbind, M_bind. destruct (m w) as [[a|e] w1]; simpl in Hevs; subst w1.
  - destruct (Hf a (after evs w)) as [evs' Hevs']. unfold exec in Hevs'.
    exists (evs ++ evs'). by rewrite Hevs', after_after.
  - by exists evs.
Qed.

Lemma only_emits_try {A} (m : M A) (h : exn -> M A) :
  only_emits m -> (forall e, only_emits (h e)) -> only_emits (try_except m h).
Proof.
  intros Hm Hh w. destruct (Hm w) as [evs Hevs]. unfold exec in *.
  unfold try_except. destruct (m w) as [[a|e] w1]; simpl in Hevs; subst w1.
  - by exists evs.
  - destruct (Hh e (after evs w)) as [evs' Hevs']. unfold exec in Hevs'.
    exists (evs ++ evs'). by rewrite Hevs', after_after.
Qed.

Lemma only_emits_load_db : only_emits load_db.
Proof. intros w. exists (load_log w). unfold exec. by rewrite load_db_run. Qed.

Lemma only_emits_send_document chat doc name cap :
  only_emits (bot_send_document chat doc name cap).
Proof.
  intros w. unfold exec, bot_send_document.
  destruct (deliverable w doc).
  - by eexists.
  - exists []. by rewrite after_nil.
Qed.

Lemma only_emits_getitem e k : only_emits (getitem e k).
Proof.
  unfold getitem. destruct (e !! k);
    [apply only_emits_ret | apply only_emits_raise].
Qed.

Lemma only_emits_index {A} (l : list A) i : only_emits (index l i).
Proof.
  unfold index. destruct (l !! i);
    [apply only_emits_ret | apply only_emits_raise].
Qed.

Lemma only_emits_for_each {A B} (f : A -> M B) (l : list A) :
  (forall a, only_emits (f a)) -> only_emits (for_each f l).
Proof.
  intros Hf. induction l as [|a l IH]; simpl; [apply only_emits_ret|].
  apply only_emits_bind; [done|]. intros b.
  apply only_emits_bind; [done|]. intros bs. apply only_emits_ret.
Qed.

Lemma only_emits_find_by_id vid l : only_emits (find_by_id vid l).
Proof.
  induction l as [|e l IH]; simpl; [apply only_emits_ret|].
  apply only_emits_bind; [apply only_emits_getitem|]. intros id.
  destruct (eq_str id vid); [apply only_emits_ret | done].
Qed.

Lemma only_emits_send_menu_page P chat page :
  only_emits (send_menu_page P chat page).
Proof.
  unfold send_menu_page.
  apply only_emits_bind; [apply only_emits_load_db|]. intros entries.
  case_bool_decide; [apply only_emits_emit|].
  apply only_emits_bind.
  { apply only_emits_for_each. intros e. unfold entry_row.
    apply only_emits_bind; [apply only_emits_getitem|]. intros t.
    apply only_emits_bind; [apply only_emits_getitem|]. intros i.
    apply only_emits_ret. }
  intros keyboard. apply only_emits_bind.
  { unfold floordiv. case_bool_decide;
      [apply only_emits_raise | apply only_emits_ret]. }
  intros pages. apply only_emits_emit.
Qed.

Lemma only_emits_callback_handler P int upd :
  only_emits (callback_handler P int upd).
Proof.
  unfold callback_handler.
  destruct (callback_query upd) as [query|]; [|apply only_emits_raise].
  apply only_emits_bind; [apply only_emits_emit|]. intros _.
  destruct (data query) as [d|]; [|apply only_emits_ret].
  destruct (_ || _); [apply only_emits_ret|].
  case_bool_decide.
  { apply only_emits_bind; [apply only_emits_emit|]. intros _.
    apply only_emits_send_menu_page. }
  destruct (startswith d "page:").
  { apply only_emits_bind.
    - apply only_emits_try; [|intros _; apply only_emits_ret].
      unfold parse_page.
      apply only_emits_bind; [apply only_emits_index|]. intros sfx.
      destruct (int sfx); [apply only_emits_ret | apply only_emits_raise].
    - intros page. apply only_emits_bind; [apply only_emits_emit|]. intros _.
      apply only_emits_send_menu_page. }
  destruct (startswith d "play:"); [|apply only_emits_ret].
  apply only_emits_bind; [apply only_emits_index|]. intros vid.
  apply only_emits_bind; [apply only_emits_load_db|]. intros entries.
  apply only_emits_bind; [apply only_emits_find_by_id|]. intros [e|];
    [|apply only_emits_emit].
  case_bool_decide; [apply only_emits_emit|].
  apply only_emits_try; [apply only_emits_send_document|]. intros _.
  apply only_emits_bind; [apply only_emits_emit|]. intros _.
  apply only_emits_emit.
Qed.

Lemma only_emits_start P upd : only_emits (start P upd).
Proof.
  unfold start.
  apply only_emits_bind; [apply only_emits_load_db|]. intros entries.
  destruct (update_message upd) as [msg|]; [|apply only_emits_raise].
  case_bool_decide; [apply only_emits_emit | apply only_emits_send_menu_page].
Qed.

(** X7. The command and callback handlers only read the store: whatever the
    update, the page size and the reading of [int], and whether they return
    or raise, [start], [send_menu_page] and [callback_handler] leave the
    backing file (and what can be written or delivered) as it was and only
    add calls to the record of calls. *)
Theorem reading_handlers_keep_the_file (P chat page : Z)
    (int : string -> option Z) (upd : Update) (w : world) :
  let unchanged (w' : world) :=
    db_file w' = db_file w /\ db_writable w' = db_writable w
    /\ deliverable w' = deliverable w
    /\ exists evs, outbox w' = outbox w ++ evs in
  unchanged (exec (send_menu_page P chat page) w)
  /\ unchanged (exec (start P upd) w)
  /\ unchanged (exec (callback_handler P int upd) w).
Proof.
  intros unchanged.
  assert (forall {A} (m : M A), only_emits m -> unchanged (exec m w)) as H.
  { intros A m Hm. destruct (Hm w) as [evs ->]. unfold unchanged. simpl.
    repeat split; try done. by exists evs. }
  split; [|split]; apply H.
  - apply only_emits_send_menu_page.
  - apply only_emits_start.
  - apply only_emits_callback_handler.
Qed.

(** ** The menu and the commands *)

(** X8. On an empty store (no file, an unreadable file, a file that holds no
    list or an empty list) [send_menu_page] sends the one message "No videos
    available yet." without a keyboard, for every page index and every page
    size, and returns normally. *)
Theorem menu_of_empty_store (P chat page : Z) (w : world) :
  stored w = [] ->
  send_menu_page P chat page w
  = (Ok tt,
     after (load_log w ++ [send_message chat "No videos available yet." None]) w).
Proof.
  intros Hnil. unfold send_menu_page.
  rewrite (bind_run _ _ _ _ _ (load_db_run w)), Hnil. simpl.
  unfold bot_send_message. by rewrite emit_run, after_after.
Qed.

(** X9. [/start] greets when the store is empty and otherwise does exactly
    what rendering page 0 in the chat of the command does. *)
Theorem start_greets_or_shows_page_0 (P : Z) (upd : Update) (msg : Message)
    (w : world) :
  update_message upd = Some msg ->
  (stored w = [] ->
   start P upd w
   = (Ok tt,
      after (load_log w ++
             [reply_text
                "Hello! No videos yet in the channel.
Forward/upload videos to your storage channel."]) w))
  /\ (stored w ≠ [] ->
      start P upd w = send_menu_page P (chat_id msg) 0 w).
Proof.
  intros Hmsg. unfold start.
  rewrite (bind_run _ _ _ _ _ (load_db_run w)), Hmsg. split.
  - intros Hnil. rewrite bool_decide_eq_true_2 by done.
    by rewrite emit_run, after_after.
  - intros Hne. rewrite bool_decide_eq_false_2 by done.
    assert (load_log w = []) as ->; [|by rewrite after_nil].
    unfold load_log, stored in *. by destruct (db_file w).
Qed.

(** ** Callbacks *)

(** X10. A callback without data, with empty data, with the data [noop] of
    the page indicator, or with data that is not [refresh_db] and starts
    with neither [page:] nor [play:], is answered and nothing else happens. *)
Theorem callback_only_answered (P : Z) (int : string -> option Z)
    (upd : Update) (query : CallbackQuery) (w : world) :
  callback_query upd = Some query ->
  data query = None
  \/ (exists d, data query = Some d
        /\ (d = "" \/ d = "noop"
            \/ (d ≠ "refresh_db" /\ startswith d "page:" = false
                /\ startswith d "play:" = false))) ->
  callback_handler P int upd w = (Ok tt, after [answer] w).
Proof.
  intros Hq Hd. unfold callback_handler. rewrite Hq.
  rewrite (bind_run _ _ _ _ _ (emit_run answer w)).
  destruct Hd as [->|(d & -> & Hd)]; [done|].
  destruct Hd as [->|[->|(Hr & Hpage & Hplay)]]; [done|done|].
  destruct (_ || _); [done|].
  by rewrite bool_decide_eq_false_2, Hpage, Hplay.
Qed.

(** X11. The refresh button does what a press on [page:<n>] with an
    unreadable number does: the menu is deleted and page 0 is rendered. *)
Theorem refresh_renders_page_0 (P : Z) (int : string -> option Z)
    (upd : Update) (query : CallbackQuery) (w : world) :
  callback_query upd = Some query ->
  data query = Some "refresh_db" ->
  callback_handler P int upd w
  = (emit answer;; emit delete;;
     send_menu_page P (chat_id (message query)) 0) w.
Proof.
  intros Hq Hd. unfold callback_handler. rewrite Hq, Hd.
  by rewrite !(bind_run _ _ _ _ _ (emit_run answer w)).
Qed.

Lemma find_by_id_found vid pre e post id w :
  no_such_id vid pre -> e !! "id" = Some id -> eq_str id vid = true ->
  find_by_id vid (pre ++ e :: post) w = (Ok (Some e), w).
Proof.
  intros Hpre Hid Heq.
  induction Hpre as [|e' pre (id' & Hid' & Hne) _ IH]; simpl.
  - unfold getitem. rewrite Hid. unfold mbind, M_bind, mret, M_ret.
    by rewrite Heq.
  - unfold getitem. rewrite Hid'. unfold mbind, M_bind, mret, M_ret.
    by rewrite Hne.
Qed.

(** What the handler does once [play:<id>] has found the record [e]. *)
Lemma play_found_run P int upd query vid pre e post id w :
  callback_query upd = Some query ->
  data query = Some ("play:" +:+ vid) ->
  stored w = pre ++ e :: post ->
  no_such_id vid pre -> e !! "id" = Some id -> eq_str id vid = true ->
  callback_handler P int upd w
  = try_except
      (bot_send_document (chat_id (message query)) (e !! "file_id")
         (format_value (default (PStr "Video") (e !! "title")) +:+ ".mp4")
         (default (PStr "Video") (e !! "title")))
      (fun _ =>
         logger ERROR "Failed to send document: %s";;
         emit (reply_text
           "Failed to send video. It might be protected or file_id expired. Re-upload to channel if needed."))
      (after [answer] w).
Proof.
  intros Hq Hd Hst Hpre Hid Heq. unfold callback_handler. rewrite Hq, Hd.
  rewrite (bind_run _ _ _ _ _ (emit_run answer w)).
  rewrite !bool_decide_eq_false_2 by done.
  rewrite play_not_page, play_prefix, split_once_play. simpl.
  rewrite (bind_run _ _ _ _ _ (ret_run vid _)).
  rewrite (bind_run _ _ _ _ _ (load_db_run _)).
  assert (load_log (after [answer] w) = []) as ->.
  { unfold load_log, stored in *. simpl. destruct (db_file w); try done.
    by destruct pre. }
  rewrite after_nil, stored_after, Hst.
  rewrite (bind_run _ _ _ _ _ (find_by_id_found vid pre e post id _ Hpre Hid Heq)).
  rewrite bool_decide_eq_false_2; [done|].
  intros ->. by rewrite lookup_empty in Hid.
Qed.

(** X12. For a callback [play:<id>], when the first record whose id equals
    <id> is [e] and the platform delivers its file reference, the handler
    answers and sends that file as a document, named "<title>.mp4" and
    captioned with the title (the title "Video" when the record has none);
    it sends nothing else. *)
Theorem play_sends_document (P : Z) (int : string -> option Z)
    (upd : Update) (query : CallbackQuery) (vid : string)
    (pre post : list entry) (e : entry) (id : pyval) (w : world) :
  callback_query upd = Some query ->
  data query = Some ("play:" +:+ vid) ->
  stored w = pre ++ e :: post ->
  no_such_id vid pre -> e !! "id" = Some id -> eq_str id vid = true ->
  deliverable w (e !! "file_id") = true ->
  let title := default (PStr "Video") (e !! "title") in
  callback_handler P int upd w
  = (Ok tt,
     after [answer;
            send_document (chat_id (message query)) (e !! "file_id")
              (format_value title +:+ ".mp4") title] w).
Proof.
  intros Hq Hd Hst Hpre Hid Heq Hdel title.
  rewrite (play_found_run P int upd query vid pre e post id w) by done.
  unfold try_except, bot_send_document. simpl. rewrite Hdel.
  by rewrite emit_run, after_after.
Qed.

(** X13. In the same situation, when the platform refuses the file
    reference, the handler does not raise: it logs the failure and replies
    with the generic message; no document is sent. *)
Theorem play_delivery_failure (P : Z) (int : string -> option Z)
    (upd : Update) (query : CallbackQuery) (vid : string)
    (pre post : list entry) (e : entry) (id : pyval) (w : world) :
  callback_query upd = Some query ->
  data query = Some ("play:" +:+ vid) ->
  stored w = pre ++ e :: post ->
  no_such_id vid pre -> e !! "id" = Some id -> eq_str id vid = true ->
  deliverable w (e !! "file_id") = false ->
  callback_handler P int upd w
  = (Ok tt,
     after [answer; log ERROR "Failed to send document: %s";
            reply_text
              "Failed to send video. It might be protected or file_id expired. Re-upload to channel if needed."]
       w).
Proof.
  intros Hq Hd Hst Hpre Hid Heq Hdel.
  rewrite (play_found_run P int upd query vid pre e post id w) by done.
  unfold try_except, bot_send_document. simpl. rewrite Hdel.
  unfold logger. rewrite (bind_run _ _ _ _ _ (emit_run _ _)).
  by rewrite emit_run, !after_after.
Qed.

(** ** Pages *)

Lemma slice_length_le {A} (l : list A) (a P : Z) :
  0 <= P -> (length (slice l a (a + P)) <= Z.to_nat P)%nat.
Proof.
  intros HP. unfold slice, clamp. rewrite length_take, length_drop.
  destruct (Z.ltb_spec a 0), (Z.ltb_spec (a + P) 0); lia.
Qed.

Lemma slice_subseteq {A} (l : list A) (a b : Z) (x : A) :
  x ∈ slice l a b -> x ∈ l.
Proof.
  unfold slice. intros H. by apply (subseteq_drop (Z.to_nat
    (clamp a (Z.of_nat (length l)))) l), (subseteq_take _ _ _ H).
Qed.

Lemma page_slice_take_drop P (l : list entry) (k : nat) :
  0 < P ->
  page_slice P l k = take (Z.to_nat P) (drop (k * Z.to_nat P) l).
Proof.
  intros HP. unfold page_slice. apply list_eq. intros j.
  rewrite slice_lookup by nia. rewrite lookup_take, lookup_drop.
  case_bool_decide; case_decide; try lia; [|done].
  f_equal. lia.
Qed.

Lemma first_pages_take P (l : list entry) (k : nat) :
  0 < P -> first_pages P l k = take (k * Z.to_nat P) l.
Proof.
  intros HP. unfold first_pages. induction k as [|k IH]; [done|].
  rewrite seq_S, fmap_app, concat_app, IH. simpl. rewrite app_nil_r.
  rewrite page_slice_take_drop by done. rewrite take_take_drop.
  f_equal. lia.
Qed.

Lemma shows_of_store (l page : list entry)
    (rows : list (list InlineKeyboardButton)) :
  (forall e, e ∈ page -> e ∈ l) -> Forall2 shows page rows ->
  Forall (fun r => exists e, e ∈ l /\ shows e r) rows.
Proof.
  intros Hsub H. induction H as [|e r page rows Hr _ IH]; constructor.
  - exists e. split; [apply Hsub; by left | done].
  - apply IH. intros e' He'. apply Hsub. by right.
Qed.

(** X14. Whatever the page index, negative ones and ones past the end among
    them, the menu of a store of records has at most [PAGE_SIZE] record
    rows, each the button of a record of the store, then a navigation row of
    one to three buttons and the refresh row. *)
Theorem menu_shape (P chat page : Z) (w : world) :
  0 < P -> stored w ≠ [] -> records (stored w) ->
  exists (rows : list (list InlineKeyboardButton))
         (nav : list InlineKeyboardButton),
    send_menu_page P chat page w
    = (Ok tt,
       after (load_log w ++
              [send_message chat "Select a video:"
                 (Some (rows ++ [nav; [Refresh]]))]) w)
    /\ (length rows <= Z.to_nat P)%nat
    /\ Forall (fun r => exists e, e ∈ stored w /\ shows e r) rows
    /\ (1 <= length nav <= 3)%nat.
Proof.
  intros HP Hne Hrec.
  destruct (send_menu_page_run P chat page w ltac:(lia) Hne Hrec)
    as (rows & Hrows & Hrun).
  exists rows, (nav_row P (Z.of_nat (length (stored w))) page).
  split; [done|]. split; [|split].
  - rewrite <- (Forall2_length _ _ _ Hrows). apply slice_length_le. lia.
  - eapply shows_of_store; [|done]. intros e. apply slice_subseteq.
  - unfold nav_row. rewrite !length_app.
    repeat case_bool_decide; simpl; lia.
Qed.

Lemma menus_of_first_pages P chat w (k : nat) :
  0 < P -> stored w ≠ [] -> records (stored w) ->
  exists menus : list (list (list InlineKeyboardButton)),
    length menus = k
    /\ (forall (i : nat) rows, menus !! i = Some rows ->
          exists nav,
            send_menu_page P chat (Z.of_nat i) w
            = (Ok tt,
               after (load_log w ++
                      [send_message chat "Select a video:"
                         (Some (rows ++ [nav; [Refresh]]))]) w))
    /\ Forall2 shows (first_pages P (stored w) k) (concat menus).
Proof.
  intros HP Hne Hrec. induction k as [|k (menus & Hlen & Hmenus & Hshow)].
  - exists []. repeat split; [done|constructor].
  - destruct (send_menu_page_run P chat (Z.of_nat k) w ltac:(lia) Hne Hrec)
      as (rows & Hrows & Hrun).
    exists (menus ++ [rows]). split; [rewrite length_app; simpl; lia|]. split.
    + intros i rows' Hi. destruct (decide (i < k)%nat) as [Hlt|Hge].
      * rewrite lookup_app_l in Hi by lia. by apply Hmenus.
      * rewrite lookup_app_r in Hi by lia.
        apply list_lookup_singleton_Some in Hi as [Hi <-].
        assert (i = k) as -> by lia. by eexists.
    + unfold first_pages in *. rewrite seq_S, fmap_app, !concat_app. simpl.
      rewrite !app_nil_r. by apply Forall2_app.
Qed.

(** X15. Paging loses and repeats nothing: the menus of the pages 0, ...,
    count - 1, where count is the number the indicator shows, put together
    have exactly one row for each record of the store, in the order of the
    store. *)
Theorem pages_show_every_record_once (P chat : Z) (w : world) :
  0 < P -> stored w ≠ [] -> records (stored w) ->
  let count := (Z.of_nat (length (stored w)) - 1) `div` P + 1 in
  exists menus : list (list (list InlineKeyboardButton)),
    Z.of_nat (length menus) = count
    /\ (forall (i : nat) rows, menus !! i = Some rows ->
          exists nav,
            send_menu_page P chat (Z.of_nat i) w
            = (Ok tt,
               after (load_log w ++
                      [send_message chat "Select a video:"
                         (Some (rows ++ [nav; [Refresh]]))]) w))
    /\ Forall2 shows (stored w) (concat menus).
Proof.
  intros HP Hne Hrec count.
  pose proof (page_count_ceil P (Z.of_nat (length (stored w))) HP) as Hceil.
  simpl in Hceil. fold count in Hceil.
  assert (0 < count) as Hpos.
  { destruct (stored w); [done|]. simpl in *. nia. }
  destruct (menus_of_first_pages P chat w (Z.to_nat count) HP Hne Hrec)
    as (menus & Hlen & Hmenus & Hshow).
  exists menus. split; [lia|]. split; [done|].
  rewrite first_pages_take, take_ge in Hshow; [done|nia|done].
Qed.

(** X16. The Next control never leads to an empty page and is never missing
    while records remain: for a page index i >= 0, the menu of page i has a
    Next control exactly when the menu of page i + 1 has a record row. *)
Theorem next_leads_to_records (P chat i : Z) (w : world) :
  0 < P -> stored w ≠ [] -> records (stored w) -> 0 <= i ->
  exists rows nav rows' nav',
    send_menu_page P chat i w
    = (Ok tt,
       after (load_log w ++
              [send_message chat "Select a video:"
                 (Some (rows ++ [nav; [Refresh]]))]) w)
    /\ send_menu_page P chat (i + 1) w
       = (Ok tt,
          after (load_log w ++
                 [send_message chat "Select a video:"
                    (Some (rows' ++ [nav'; [Refresh]]))]) w)
    /\ (Exists is_Next nav <-> rows' ≠ []).
Proof.
  intros HP Hne Hrec Hi.
  destruct (send_menu_page_run P chat i w ltac:(lia) Hne Hrec)
    as (rows & Hrows & Hrun).
  destruct (send_menu_page_run P chat (i + 1) w ltac:(lia) Hne Hrec)
    as (rows' & Hrows' & Hrun').
  exists rows, (nav_row P (Z.of_nat (length (stored w))) i),
    rows', (nav_row P (Z.of_nat (length (stored w))) (i + 1)).
  split; [done|]. split; [done|].
  rewrite nav_row_Next, <- length_zero_iff_nil.
  rewrite <- (Forall2_length _ _ _ Hrows'), slice_length by nia. lia.
Qed.

(** ** Channel posts, once more *)

(** The listener either only logs or is one upsert followed by a log line;
    which of the two, and the upsert, depend on the update alone. *)
Lemma channel_post_listener_shape CHANNEL_ID upd :
  (exists evs, forall w,
      channel_post_listener CHANNEL_ID upd w = (Ok tt, after evs w))
  \/ (exists title fid m format, forall w,
        channel_post_listener CHANNEL_ID upd w
        = (add_or_update_entry title fid m;; logger INFO format) w).
Proof.
  unfold channel_post_listener.
  destruct (channel_post upd) as [msg|];
    [|left; exists []; intros w; by rewrite after_nil].
  case_bool_decide; [left; exists []; intros w; by rewrite after_nil|].
  destruct (document msg) as [doc|]; [right; by repeat eexists|].
  destruct (video msg) as [vid|]; [right; by repeat eexists|].
  case_bool_decide as Hphoto; [|left; by eexists].
  right. unfold index_last.
  destruct (last (photo msg)) as [largest|] eqn:Hlast; [by repeat eexists|].
  apply last_None in Hlast. done.
Qed.

Lemma upsert_then_log_run title fid m format w :
  (add_or_update_entry title fid m;; logger INFO format) w
  = (Ok tt, after [log INFO format] (exec (add_or_update_entry title fid m) w)).
Proof.
  unfold exec.
  rewrite (bind_run _ _ _ _ _ (add_or_update_entry_run title fid m w)).
  by rewrite add_or_update_entry_run.
Qed.


(** X18. A channel post delivered twice leaves the backing file as one
    delivery leaves it: the platform may repeat an update without the store
    growing or changing. *)
Theorem redelivered_post_changes_nothing (CHANNEL_ID : Z) (upd : Update)
    (w : world) :
  let once := exec (channel_post_listener CHANNEL_ID upd) w in
  db_file (exec (channel_post_listener CHANNEL_ID upd) once) = db_file once.
Proof.
  intros once. subst once. unfold exec at 1 2 3.
  destruct (channel_post_listener_shape CHANNEL_ID upd)
    as [(evs & H)|(title & fid & m & format & H)]; rewrite !H; [done|].
  rewrite !upsert_then_log_run. simpl.
  rewrite !db_file_upsert. simpl.
  rewrite db_writable_upsert, stored_after, stored_upsert.
  destruct (db_writable w) eqn:Hwr.
  - by rewrite upserted_idempotent.
  - by rewrite db_file_upsert, Hwr.
Qed.

(** ** Records with a missing key, and the way back from a button *)

Lemma entry_row_cases (e : entry) (w : world) :
  (exists r, entry_row e w = (Ok r, w)
             /\ e !! "title" ≠ None /\ e !! "id" ≠ None)
  \/ (exists key, entry_row e w = (Raise (KeyError key), w)
                  /\ (key = "title" \/ key = "id")).
Proof.
  unfold entry_row, getitem.
  destruct (e !! "title") as [t|]; [|right; exists "title"; by split; [|left]].
  destruct (e !! "id") as [i|]; [|right; exists "id"; by split; [|right]].
  left. by eexists.
Qed.

Lemma for_each_entry_row_raises (l : list entry) (w : world) :
  Exists (fun e => e !! "title" = None \/ e !! "id" = None) l ->
  exists key, for_each entry_row l w = (Raise (KeyError key), w)
              /\ (key = "title" \/ key = "id").
Proof.
  induction l as [|e l IH]; intros H; [by apply Exists_nil in H|].
  simpl.
  destruct (entry_row_cases e w) as [(r & Hr & Ht & Hi)|(key & Hr & Hkey)].
  - apply Exists_cons in H as [[?|?]|H]; [done..|].
    destruct (IH H) as (key & Hrun & Hkey). exists key. split; [|done].
    rewrite (bind_run _ _ _ _ _ Hr). by rewrite (bind_raise _ _ _ _ _ Hrun).
  - exists key. split; [|done]. by rewrite (bind_raise _ _ _ _ _ Hr).
Qed.

(** X19. When a record of the page to show lacks the key [title] or the key
    [id], [send_menu_page] raises [KeyError] for one of the two and sends no
    message at all. *)
Theorem menu_of_a_record_without_key (P chat page : Z) (w : world) :
  stored w ≠ [] ->
  Exists (fun e => e !! "title" = None \/ e !! "id" = None)
    (slice (stored w) (page * P) (page * P + P)) ->
  exists key,
    send_menu_page P chat page w = (Raise (KeyError key), w)
    /\ (key = "title" \/ key = "id").
Proof.
  intros Hne Hbad.
  destruct (for_each_entry_row_raises _ w Hbad) as (key & Hrun & Hkey).
  exists key. split; [|done]. unfold send_menu_page.
  rewrite (bind_run _ _ _ _ _ (load_db_run w)).
  assert (load_log w = []) as ->.
  { unfold load_log, stored in *. by destruct (db_file w). }
  rewrite after_nil.
  rewrite bool_decide_eq_false_2 by (destruct (stored w); simpl; [done|lia]).
  by rewrite (bind_raise _ _ _ _ _ Hrun).
Qed.

Lemma page_callback_run P int upd query sfx w :
  callback_query upd = Some query ->
  data query = Some ("page:" +:+ sfx) ->
  callback_handler P int upd w
  = (emit answer;; emit delete;;
     send_menu_page P (chat_id (message query)) (default 0 (int sfx))) w.
Proof.
  intros Hq Hd. unfold callback_handler. rewrite Hq, Hd.
  rewrite !(bind_run _ _ _ _ _ (emit_run answer w)).
  rewrite !bool_decide_eq_false_2 by done. rewrite page_prefix. simpl.
  by rewrite (bind_run _ _ _ _ _ (parse_page_run int sfx _)).
Qed.

(** X20. The controls lead where they say: a press on the Prev control of
    the menu of page [page] renders page [page - 1], and a press on its Next
    control renders page [page + 1], provided [int] reads back the numerals
    that [str] wrote into the two buttons. *)
Theorem controls_lead_to_neighbours (P : Z) (int : string -> option Z)
    (upd : Update) (query : CallbackQuery) (page : Z) (w : world) :
  callback_query upd = Some query ->
  int (str (page - 1)) = Some (page - 1) ->
  int (str (page + 1)) = Some (page + 1) ->
  let render (n : Z) : M unit :=
    emit answer;; emit delete;; send_menu_page P (chat_id (message query)) n in
  (data query = Some (callback_data (Prev page)) ->
   callback_handler P int upd w = render (page - 1) w)
  /\ (data query = Some (callback_data (Next page)) ->
      callback_handler P int upd w = render (page + 1) w).
Proof.
  intros Hq Hprev Hnext render. split; intros Hd; simpl in Hd.
  - rewrite (page_callback_run P int upd query _ w Hq Hd). by rewrite Hprev.
  - rewrite (page_callback_run P int upd query _ w Hq Hd). by rewrite Hnext.
Qed.

(** *** [int] reads back what [str] writes *)

Lemma digit_pretty_N_char (d : N) :
  (d < 10)%N -> digit (pretty_N_char d) = Some (Z.of_N d).
Proof.
  intros Hd.
  assert (d = 0 \/ d = 1 \/ d = 2 \/ d = 3 \/ d = 4 \/ d = 5 \/ d = 6
          \/ d = 7 \/ d = 8 \/ d = 9)%N as H by lia.
  by repeat (destruct H as [->|H]); subst.
Qed.

Lemma digits_pretty_N_go (x : N) (s : string) :
  (0 < x)%N ->
  digits 0 false (bytes_of (pretty_N_go x s))
  = digits (Z.of_N x) true (bytes_of s).
Proof.
  revert s. induction (N.lt_wf_0 x) as [x _ IH]. intros s Hx.
  rewrite pretty_N_go_step by done.
  pose proof (N.mod_lt x 10 ltac:(lia)) as Hmod.
  pose proof (N.div_mod x 10 ltac:(lia)) as Hdm.
  destruct (decide (x `div` 10 = 0)%N) as [Hz|Hnz].
  - rewrite Hz, pretty_N_go_0. simpl.
    rewrite digit_pretty_N_char by done. f_equal. lia.
  - rewrite IH; [|apply N.div_lt; lia|lia]. simpl.
    rewrite digit_pretty_N_char by done. f_equal. lia.
Qed.


Lemma plain_bounds c :
  plain c = true -> ascii_space c = false /\ (nat_of_ascii c < 128)%nat.
Proof.
  unfold plain. intros [H1 H2%Nat.ltb_lt]%andb_true_iff.
  by apply negb_true_iff in H1.
Qed.

Lemma space2_plain_first a b : plain a = true -> space2 a b = false.
Proof.
  intros [_ H]%plain_bounds. unfold space2, byte_is.
  by destruct (Nat.eqb_spec (nat_of_ascii a) 194); [lia|].
Qed.

Lemma space3_plain_first a b c : plain a = true -> space3 a b c = false.
Proof.
  intros [_ H]%plain_bounds. unfold space3, byte_is.
  destruct (Nat.eqb_spec (nat_of_ascii a) 225); [lia|].
  destruct (Nat.eqb_spec (nat_of_ascii a) 226); [lia|].
  by destruct (Nat.eqb_spec (nat_of_ascii a) 227); [lia|].
Qed.

Lemma space2_plain_last b c : plain c = true -> space2 b c = false.
Proof.
  intros [_ H]%plain_bounds. unfold space2, byte_is.
  destruct (Nat.eqb_spec (nat_of_ascii c) 133); [lia|].
  destruct (Nat.eqb_spec (nat_of_ascii c) 160); [lia|].
  by rewrite andb_false_r.
Qed.

Lemma space3_plain_last a b c : plain c = true -> space3 a b c = false.
Proof.
  intros [_ H]%plain_bounds. unfold space3, byte_is.
  destruct (Nat.eqb_spec (nat_of_ascii c) 128); [lia|].
  destruct (Nat.eqb_spec (nat_of_ascii c) 168); [lia|].
  destruct (Nat.eqb_spec (nat_of_ascii c) 169); [lia|].
  destruct (Nat.eqb_spec (nat_of_ascii c) 175); [lia|].
  destruct (Nat.eqb_spec (nat_of_ascii c) 159); [lia|].
  destruct (Nat.leb_spec 128 (nat_of_ascii c)); [lia|].
  simpl. by rewrite !andb_false_r.
Qed.

Lemma lstrip_bytes_plain n a l :
  plain a = true -> lstrip_bytes n (a :: l) = a :: l.
Proof.
  intros Ha. destruct n; [done|]. simpl.
  rewrite (proj1 (plain_bounds a Ha)).
  destruct l as [|b l]; [done|]. rewrite space2_plain_first by done.
  destruct l as [|c l]; [done|]. by rewrite space3_plain_first.
Qed.

Lemma rstrip_rev_bytes_plain n c l :
  plain c = true -> rstrip_rev_bytes n (c :: l) = c :: l.
Proof.
  intros Hc. destruct n; [done|]. simpl.
  rewrite (proj1 (plain_bounds c Hc)).
  destruct l as [|b l]; [done|]. rewrite space2_plain_last by done.
  destruct l as [|a l]; [done|]. by rewrite space3_plain_last.
Qed.

(** [strip] leaves a string alone that starts and ends with an ASCII
    character other than white space. *)
Lemma strip_plain (s : string) :
  Forall (fun c => plain c = true) (bytes_of s) -> strip s = s.
Proof.
  intros H. unfold strip.
  destruct (bytes_of s) as [|a l] eqn:Hs.
  { destruct s; [done|discriminate]. }
  rewrite lstrip_bytes_plain by (by inversion H).
  destruct (rev (a :: l)) as [|c r] eqn:Hrev.
  { apply (f_equal (@length _)) in Hrev. rewrite length_rev in Hrev. done. }
  rewrite rstrip_rev_bytes_plain.
  - rewrite <- Hrev, rev_involutive, <- Hs. unfold of_bytes, bytes_of.
    apply string_of_list_ascii_of_string.
  - apply (proj1 (Forall_forall _ _) H). apply list_elem_of_In, in_rev.
    rewrite Hrev. by left.
Qed.

Lemma is_digit_plain c : is_digit c = true -> plain c = true.
Proof.
  unfold is_digit, plain, ascii_space.
  intros [H1%Nat.leb_le H2%Nat.leb_le]%andb_true_iff.
  apply andb_true_iff. split; [|apply Nat.ltb_lt; lia].
  apply negb_true_iff.
  destruct (Nat.leb_spec (nat_of_ascii c) 13); [lia|].
  destruct (Nat.leb_spec (nat_of_ascii c) 32); [lia|].
  by rewrite !andb_false_r.
Qed.

Lemma is_digit_pretty_N_char d : is_digit (pretty_N_char d) = true.
Proof. unfold pretty_N_char. by repeat case_match. Qed.

Lemma is_digit_pretty_N_go (x : N) (s : string) :
  Forall (fun c => is_digit c = true) (bytes_of s) ->
  Forall (fun c => is_digit c = true) (bytes_of (pretty_N_go x s)).
Proof.
  revert s. induction (N.lt_wf_0 x) as [x _ IH]. intros s Hs.
  destruct (decide (0 < x)%N) as [Hx|Hx].
  - rewrite pretty_N_go_step by done. apply IH; [apply N.div_lt; lia|].
    simpl. constructor; [apply is_digit_pretty_N_char | done].
  - assert (x = 0%N) as -> by lia. by rewrite pretty_N_go_0.
Qed.

(** The numeral of a positive number: digits only, read back by [digits]
    and left alone by [strip]. *)
Lemma numeral_of_positive (p : positive) :
  let s := pretty_N_go (N.pos p) "" in
  Forall (fun c => is_digit c = true) (bytes_of s)
  /\ digits 0 false (bytes_of s) = Some (Z.pos p).
Proof.
  split; [by apply is_digit_pretty_N_go|].
  by rewrite digits_pretty_N_go.
Qed.

Lemma ascii_int_str (n : Z) : ascii_int (str n) = Some n.
Proof.
  unfold str, pretty, pretty_Z. destruct n as [|p|p]; [done|..].
  - unfold pretty, pretty_positive, pretty, pretty_N. simpl.
    destruct (numeral_of_positive p) as [Hd Hp]. simpl in Hd, Hp.
    unfold ascii_int. rewrite strip_plain
      by (eapply Forall_impl; [exact Hd | apply is_digit_plain]).
    destruct (bytes_of _) as [|c l]; [done|].
    assert (is_digit c = true) as Hc by (by inversion Hd).
    rewrite !bool_decide_eq_false_2; [done|by intros ->..].
  - unfold pretty, pretty_positive, pretty, pretty_N. simpl.
    destruct (numeral_of_positive p) as [Hd Hp]. simpl in Hd, Hp.
    unfold ascii_int. rewrite strip_plain.
    + simpl.
      change (Z.opp <$> digits 0 false (bytes_of (pretty_N_go (N.pos p) ""))
              = Some (Z.neg p)).
      by rewrite Hp.
    + simpl. constructor; [done|].
      eapply Forall_impl; [exact Hd | apply is_digit_plain].
Qed.

(** X21. In the script as deployed, with [int] read on ASCII numerals, the
    controls lead where they say for every page index: a press on Prev of
    page [page] renders page [page - 1] and a press on Next renders page
    [page + 1]. *)
Theorem deployed_controls_round_trip (upd : Update) (query : CallbackQuery)
    (page : Z) (w : world) :
  callback_query upd = Some query ->
  let render (n : Z) : M unit :=
    emit answer;; emit delete;;
    main.send_menu_page (chat_id (message query)) n in
  (data query = Some (callback_data (Prev page)) ->
   main.callback_handler upd w = render (page - 1) w)
  /\ (data query = Some (callback_data (Next page)) ->
      main.callback_handler upd w = render (page + 1) w).
Proof.
  intros Hq render. unfold main.callback_handler.
  split; intros Hd; simpl in Hd;
    rewrite (page_callback_run _ _ upd query _ w Hq Hd);
    by rewrite ascii_int_str.
Qed.

(** ** The further properties at concrete inputs *)

Lemma save_then_load_witness :
  outcome (save_db two_records;; load_db) corrupt_world = Ok two_records.
Proof.
  destruct (save_then_load two_records corrupt_world eq_refl) as [H _].
  exact H.
Defined.

Lemma upsert_unwritable_witness :
  db_file (exec (add_or_update_entry "finale" "F3" 3) readonly_world)
  = db_file readonly_world.
Proof.
  destruct (upsert_unwritable readonly_world "finale" "F3" 3 eq_refl)
    as (_ & H & _).
  exact H.
Defined.

Lemma upsert_overwrites_bad_file_witness :
  db_file (exec (add_or_update_entry "finale" "F3" 3) corrupt_world)
  = Parsed (JList [new_entry "finale" "F3" 3]).
Proof.
  apply (upsert_overwrites_bad_file corrupt_world "finale" "F3" 3).
  - intros l. discriminate.
  - reflexivity.
Defined.

Lemma menu_of_empty_store_witness :
  outbox (exec (main.send_menu_page 7 3) fresh_world)
  = [send_message 7 "No videos available yet." None].
Proof.
  unfold exec, main.send_menu_page.
  rewrite (menu_of_empty_store main.PAGE_SIZE 7 3 fresh_world eq_refl).
  reflexivity.
Defined.

Lemma start_greets_or_shows_page_0_witness :
  main.start command small_world = main.send_menu_page 7 0 small_world.
Proof.
  destruct (start_greets_or_shows_page_0 main.PAGE_SIZE command menu_message
              small_world eq_refl) as [_ H].
  apply H. discriminate.
Defined.

Lemma callback_only_answered_witness :
  main.callback_handler (press "help") small_world
  = (Ok tt, after [answer] small_world).
Proof.
  apply (callback_only_answered main.PAGE_SIZE ascii_int (press "help")
           (Build_CallbackQuery (Some "help") menu_message) small_world).
  - reflexivity.
  - right. exists "help". split; [reflexivity|]. right. right.
    split; [discriminate|]. split; reflexivity.
Defined.

Lemma refresh_renders_page_0_witness :
  main.callback_handler (press "refresh_db") small_world
  = (emit answer;; emit delete;; main.send_menu_page 7 0) small_world.
Proof.
  apply (refresh_renders_page_0 main.PAGE_SIZE ascii_int (press "refresh_db")
           (Build_CallbackQuery (Some "refresh_db") menu_message) small_world);
    reflexivity.
Defined.

Lemma play_sends_document_witness :
  main.callback_handler (press "play:2") small_world
  = (Ok tt,
     after [answer; send_document 7 (Some (PStr "F2")) "outro.mp4" (PStr "outro")]
       small_world).
Proof.
  apply (play_sends_document main.PAGE_SIZE ascii_int (press "play:2")
           (Build_CallbackQuery (Some "play:2") menu_message) "2"
           [new_entry "intro" "F1" 1] [] (new_entry "outro" "F2" 2)
           (PStr "2") small_world).
  - reflexivity.
  - reflexivity.
  - reflexivity.
  - repeat constructor; eexists; split; reflexivity.
  - reflexivity.
  - reflexivity.
  - reflexivity.
Defined.

Lemma play_delivery_failure_witness :
  outbox (exec (main.callback_handler (press "play:2")) undelivering_world)
  = [answer; log ERROR "Failed to send document: %s";
     reply_text
       "Failed to send video. It might be protected or file_id expired. Re-upload to channel if needed."].
Proof.
  unfold exec, main.callback_handler.
  rewrite (play_delivery_failure main.PAGE_SIZE ascii_int (press "play:2")
             (Build_CallbackQuery (Some "play:2") menu_message) "2"
             [new_entry "intro" "F1" 1] [] (new_entry "outro" "F2" 2)
             (PStr "2") undelivering_world).
  - reflexivity.
  - reflexivity.
  - reflexivity.
  - reflexivity.
  - repeat constructor; eexists; split; reflexivity.
  - reflexivity.
  - reflexivity.
  - reflexivity.
Defined.

Lemma menu_shape_witness :
  exists rows nav,
    main.send_menu_page 7 (-2) demo_world
    = (Ok tt,
       after [send_message 7 "Select a video:"
                (Some (rows ++ [nav; [Refresh]]))] demo_world)
    /\ (length rows <= 6)%nat.
Proof.
  destruct (menu_shape main.PAGE_SIZE 7 (-2) demo_world)
    as (rows & nav & Hrun & Hlen & _);
    [reflexivity | discriminate | apply records_thirteen |].
  exists rows, nav. split; [exact Hrun | exact Hlen].
Defined.

Lemma pages_show_every_record_once_witness :
  exists menus : list (list (list InlineKeyboardButton)),
    length menus = 3%nat /\ Forall2 shows thirteen_records (concat menus).
Proof.
  destruct (pages_show_every_record_once main.PAGE_SIZE 7 demo_world)
    as (menus & Hlen & _ & Hshow);
    [reflexivity | discriminate | apply records_thirteen |].
  exists menus. split; [|exact Hshow].
  apply Nat2Z.inj. exact Hlen.
Defined.

Lemma next_leads_to_records_witness :
  exists rows nav rows' nav',
    main.send_menu_page 7 1 demo_world
    = (Ok tt,
       after [send_message 7 "Select a video:"
                (Some (rows ++ [nav; [Refresh]]))] demo_world)
    /\ main.send_menu_page 7 2 demo_world
       = (Ok tt,
          after [send_message 7 "Select a video:"
                   (Some (rows' ++ [nav'; [Refresh]]))] demo_world)
    /\ (Exists is_Next nav <-> rows' ≠ []).
Proof.
  destruct (next_leads_to_records main.PAGE_SIZE 7 1 demo_world)
    as (rows & nav & rows' & nav' & H1 & H2 & H3);
    [reflexivity | discriminate | apply records_thirteen | discriminate |].
  exists rows, nav, rows', nav'.
  split; [exact H1|]. split; [exact H2 | exact H3].
Defined.

Lemma menu_of_a_record_without_key_witness :
  exists key,
    main.send_menu_page 7 0 broken_world = (Raise (KeyError key), broken_world).
Proof.
  destruct (menu_of_a_record_without_key main.PAGE_SIZE 7 0 broken_world)
    as (key & H & _).
  - discriminate.
  - apply Exists_cons_hd. left. reflexivity.
  - exists key. exact H.
Defined.

Lemma controls_lead_to_neighbours_witness :
  main.callback_handler (press "page:2") demo_world
  = (emit answer;; emit delete;; main.send_menu_page 7 2) demo_world.
Proof.
  destruct (controls_lead_to_neighbours main.PAGE_SIZE ascii_int
              (press "page:2")
              (Build_CallbackQuery (Some "page:2") menu_message) 1 demo_world
              eq_refl eq_refl eq_refl) as [_ H].
  apply H. reflexivity.
Defined.

Lemma deployed_controls_round_trip_witness :
  main.callback_handler (press "page:0") demo_world
  = (emit answer;; emit delete;; main.send_menu_page 7 0) demo_world.
Proof.
  destruct (deployed_controls_round_trip (press "page:0")
              (Build_CallbackQuery (Some "page:0") menu_message) 1 demo_world
              eq_refl) as [H _].
  apply H. reflexivity.
Defined.
